(** * discord_bot_server: subscription registry, relay and connection handler

    A shallow embedding of the relay core of the server:
    - [class DiscordBot] of [src/services/discord-bot.ts],
    - [class DiscordHandler], the connection handler of the [/discord]
      namespace (imported as [../handlers/discord-handler]),
    - [authenticateSocket] of [src/middleware/auth.ts].

    The JavaScript [Map<string, Set<string>>] of the registry is a
    [gmap string (gset string)]; the per-connection [Set<string>], which the
    disconnect handler walks with [for ... of], is an insertion-ordered list.
    A method is a function from the world (the bot's fields and one
    connection's fields) to its result, the new world and the list of what it
    asked the transport and the console to do; [try]/[catch] keeps the writes
    made before the throw. Each [async] method runs as one uninterrupted step:
    what other handlers do while a method waits on an [await] is outside this
    development. *)

From stdpp Require Import base option list strings gmap fin_maps fin_sets.

Local Open Scope string_scope.
Local Open Scope list_scope.

(* ===================================================================== *)
(** ** The subscription registry ([DiscordBot.channelSubscriptions])      *)
(* ===================================================================== *)

Module Registry.

(** [private channelSubscriptions: Map<string, Set<string>>], channelId -> userIds *)
Abbreviation t := (gmap string (gset string)).

(** [new Map()] *)
Definition empty : t := ∅.

(** [subscribeToChannel]:
<<
  if (!this.channelSubscriptions.has(channelId)) {
    this.channelSubscriptions.set(channelId, new Set());
  }
  this.channelSubscriptions.get(channelId)!.add(userId);
>> *)
Definition subscribeToChannel (channelId userId : string) (m : t) : t :=
  let m1 := match m !! channelId with
            | Some _ => m
            | None => <[channelId := ∅]> m
            end in
  match m1 !! channelId with
  | Some subscribers => <[channelId := subscribers ∪ {[userId]}]> m1
  | None => m1 (* unreachable: the entry was created just above *)
  end.

(** [unsubscribeFromChannel]:
<<
  const subscribers = this.channelSubscriptions.get(channelId);
  if (subscribers) {
    subscribers.delete(userId);
    if (subscribers.size === 0) {
      this.channelSubscriptions.delete(channelId);
    }
  }
>>
    The set is mutated in place, so the map holds the shrunk set before the
    size test. *)
Definition unsubscribeFromChannel (channelId userId : string) (m : t) : t :=
  match m !! channelId with
  | Some subscribers =>
      let subscribers' := subscribers ∖ {[userId]} in
      let m1 := <[channelId := subscribers']> m in
      if decide (size subscribers' = 0) then delete channelId m1 else m1
  | None => m
  end.

(** [this.channelSubscriptions.get(channelId)], with [undefined] kept as [None]. *)
Definition get (channelId : string) (m : t) : option (gset string) := m !! channelId.

(** Who is subscribed to a channel: the set stored under [channelId], and
    nobody when [get] gives [undefined]. *)
Definition listSubscribers (channelId : string) (m : t) : gset string :=
  default ∅ (m !! channelId).

(** A call made on the registry by a connection. *)
Inductive call :=
| Subscribe (channelId userId : string)
| Unsubscribe (channelId userId : string).

Definition step (m : t) (c : call) : t :=
  match c with
  | Subscribe ch u => subscribeToChannel ch u m
  | Unsubscribe ch u => unsubscribeFromChannel ch u m
  end.

(** The registry after a sequence of calls, oldest first. *)
Definition run (cs : list call) (m : t) : t := foldl step m cs.

(** States the process can be in: the field is private and is only written
    by the two methods above. *)
Definition reachable (m : t) : Prop := ∃ cs, m = run cs empty.

(** No dangling entry: every stored subscriber set has a member. *)
Definition no_empty_entry (m : t) : Prop :=
  ∀ ch s, m !! ch = Some s → s ≠ ∅.

(** [getSubscriptionStats]: channel count, subscriber total and the
    per-channel sizes. [channelDetails] follows the enumeration of the
    [gmap]; the insertion order of the JavaScript [Map] is not kept. *)
Record stats := {
  totalChannels : nat;
  totalSubscribers : nat;
  channelDetails : list (string * nat)
}.

Definition getSubscriptionStats (m : t) : stats :=
  let details := (λ e : string * gset string, (e.1, size e.2)) <$> map_to_list m in
  {| totalChannels := size m;
     totalSubscribers := foldr (λ d acc, d.2 + acc) 0 details;
     channelDetails := details |}.

End Registry.

(* ===================================================================== *)
(** ** JavaScript values                                                  *)
(* ===================================================================== *)

Module Js.

(** Classes of the values the code can catch. [JsonWebTokenError],
    [TokenExpiredError] and [NotBeforeError] are the three classes exported
    by the [jsonwebtoken] package. *)
Inductive ErrorClass :=
| Error
| TypeError
| RangeError
| JsonWebTokenError
| TokenExpiredError
| NotBeforeError.

#[global] Instance ErrorClass_eq_dec : EqDecision ErrorClass.
Proof. solve_decision. Defined.

(** The prototype each class extends. In [jsonwebtoken],
    [lib/TokenExpiredError.js] and [lib/NotBeforeError.js] set their prototype
    to [Object.create(JsonWebTokenError.prototype)], and
    [lib/JsonWebTokenError.js] to [Object.create(Error.prototype)]. *)
Definition extends (c : ErrorClass) : option ErrorClass :=
  match c with
  | Error => None
  | TypeError => Some Error
  | RangeError => Some Error
  | JsonWebTokenError => Some Error
  | TokenExpiredError => Some JsonWebTokenError
  | NotBeforeError => Some JsonWebTokenError
  end.

(** A thrown value: [new C(message)]. *)
Record exn := Throw { exn_class : ErrorClass; exn_message : string }.

(** Walk of the prototype chain, [fuel] links deep. *)
Fixpoint inherits (fuel : nat) (c target : ErrorClass) : bool :=
  if decide (c = target) then true
  else match fuel with
       | 0 => false
       | S fuel' =>
           match extends c with
           | Some parent => inherits fuel' parent target
           | None => false
           end
       end.

(** [e instanceof C]; no chain is longer than the number of classes. *)
Definition instanceOf (e : exn) (C : ErrorClass) : bool :=
  inherits 6 (exn_class e) C.

(** Truthiness of a possibly missing string: [null], [undefined] and ['']
    are falsy. *)
Definition truthy (s : option string) : bool :=
  match s with
  | Some v => bool_decide (v ≠ "")
  | None => false
  end.

(** [a || b] with [a] a possibly missing string. *)
Definition or_string (a : option string) (b : string) : string :=
  match a with
  | Some v => if truthy a then v else b
  | None => b
  end.

(** [a || 0] and [a ?? 0] with [a] a possibly missing number: both give
    [a] when it is a number ([0 || 0] is [0]) and [0] otherwise. *)
Definition or_zero (a : option nat) : nat := default 0 a.
Definition nullish_zero (a : option nat) : nat := default 0 a.

(** A [Date]: [None] is the invalid date, on which [toISOString] throws a
    [RangeError]. *)
Definition Date := option string.

Definition toISOString (d : Date) : exn + string :=
  match d with
  | Some iso => inr iso
  | None => inl (Throw RangeError "Invalid time value")
  end.

End Js.

(** An insertion-ordered [Set<string>], as [for ... of] walks it. *)
Module StringSet.

Definition t := list string.

Definition empty : t := [].

Definition has (x : string) (s : t) : bool := bool_decide (x ∈ s).

Definition add (x : string) (s : t) : t := if has x s then s else s ++ [x].

Definition delete (x : string) (s : t) : t := filter (λ y, y ≠ x) s.

Definition clear (s : t) : t := [].

End StringSet.

(* ===================================================================== *)
(** ** Wire records ([src/types]) and what the transport is asked to do   *)
(* ===================================================================== *)

Module Wire.

Record MessageAuthor := {
  author_id : string;
  author_username : string;
  author_displayName : string;
  author_avatar : string;
  author_bot : bool
}.

Record Attachment := {
  attachment_id : string;
  attachment_filename : string;
  attachment_url : string;
  attachment_proxyUrl : string;
  attachment_size : nat;
  attachment_contentType : string;
  attachment_width : nat;
  attachment_height : nat
}.

Record EmbedField := {
  field_name : string;
  field_value : string;
  field_inline : bool
}.

Record Embed := {
  embed_title : string;
  embed_description : string;
  embed_url : string;
  embed_color : nat;
  embed_thumbnail_url : string;
  embed_image_url : string;
  embed_author_name : string;
  embed_author_iconUrl : option string;
  embed_fields : list EmbedField
}.

Record Reaction := {
  reaction_emoji : string;
  reaction_count : nat;
  reaction_users : list string
}.

(** [DiscordMessage] *)
Record DiscordMessage := {
  id : string;
  content : string;
  author : MessageAuthor;
  timestamp : string;
  channelId : string;
  serverId : string;
  attachments : list Attachment;
  embeds : list Embed;
  reactions : list Reaction;
  edited : bool;
  editedTimestamp : string
}.

Record Permissions := {
  canRead : bool;
  canWrite : bool;
  canManage : bool
}.

(** A channel descriptor, as pushed by [getUserChannels] and emitted by
    [handleJoinChannel]. *)
Record ChannelDescriptor := {
  channel_id : string;
  channel_name : string;
  channel_type : string;
  channel_serverId : string;
  channel_serverName : string;
  channel_position : nat;
  channel_unreadCount : nat;
  channel_isActive : bool;
  channel_permissions : Permissions
}.

(** What [getChannelInfo] returns. *)
Record ChannelInfo := {
  info_id : string;
  info_name : string;
  info_type : nat;
  info_serverId : string;
  info_serverName : string
}.

(** [GetChannelsResponse], [JoinChannelResponse], [LeaveChannelResponse]:
    a missing optional field is [None]. *)
Record GetChannelsResponse := {
  gc_success : bool;
  gc_error : option string;
  gc_channels : list ChannelDescriptor
}.

Record JoinChannelResponse := {
  jc_success : bool;
  jc_channelId : option string;
  jc_alreadyJoined : option bool;
  jc_error : option string
}.

Record LeaveChannelResponse := {
  lc_success : bool;
  lc_channelId : option string;
  lc_error : option string
}.

(** Payloads of the events sent to clients. *)
Inductive payload :=
| Message (m : DiscordMessage)
| MessageDelete (messageId channelId : string)
| Channels (cs : list ChannelDescriptor)
| Channel (c : ChannelDescriptor)
| UserInfo (userId : option string) (username : string) (permissions : option (list string))
| UserLeft (channelId : string) (user_id : option string) (user_username : string)
| ErrorEvent (code message severity : string).

(** One observable action of a handler, in program order. *)
Inductive effect :=
| (** [this.socket.emit(event, p)]: to this connection only *)
  SocketEmit (event : string) (p : payload)
| (** [this.socket.to(room).emit(event, p)]: to the room, sender excepted *)
  SocketTo (room event : string) (p : payload)
| (** [this.io.of('/discord').to(room).emit(event, p)] *)
  NamespaceTo (room event : string) (p : payload)
| (** the optional result callback of the three client requests *)
  AckGetChannels (r : GetChannelsResponse)
| AckJoin (r : JoinChannelResponse)
| AckLeave (r : LeaveChannelResponse)
| (** [console.log] and [console.error], by the fixed text of the line
      (interpolated values left out); the caught error when one is printed *)
  Console (line : string) (err : option Js.exn)
| (** [logError(error, context, userId)] of [middleware/error-handler] *)
  LogError (err : Js.exn) (context : string) (userId : option string).

(** The delivery group of a channel: [`channel:${channelId}`]. *)
Definition room_of (channelId : string) : string := "channel:" +:+ channelId.

(** A call on the transport that sends an event to some client. *)
Definition is_transport_emit (e : effect) : bool :=
  match e with
  | SocketEmit _ _ | SocketTo _ _ _ | NamespaceTo _ _ _ => true
  | _ => false
  end.

Definition is_ack (e : effect) : bool :=
  match e with AckGetChannels _ | AckJoin _ | AckLeave _ => true | _ => false end.

End Wire.

(* ===================================================================== *)
(** ** The upstream collaborator (discord.js client), as the code reads it *)
(* ===================================================================== *)

Module Upstream.

Record Guild := { guild_id : string; guild_name : string }.

Record GuildMember := { member_id : string }.

(** A channel of the client cache or of [client.channels.fetch]. *)
Record Channel := {
  id : string;
  (** [channel.isTextBased?.()]: [None] when the method is absent *)
  isTextBased : option bool;
  (** ['name' in channel] *)
  name : option string;
  type : nat;
  (** ['guild' in channel && channel.guild] *)
  guild : option Guild;
  (** ['position' in channel && typeof channel.position === 'number'] *)
  position : option nat;
  (** [channel.permissionsFor(member)]: the names of the granted
      permissions, or [null] when the member cannot be resolved *)
  permissionsFor : GuildMember → option (list string)
}.

(** One entry of [client.guilds.cache]. *)
Record GuildEntry := {
  entry_guild : Guild;
  (** [guild.members.fetch(userId)], which rejects for a non-member *)
  members_fetch : string → Js.exn + GuildMember;
  channels_cache : list Channel
}.

Record t := {
  (** [client.channels.fetch(channelId)]: rejects, or resolves to a
      channel or to [null] *)
  channels_fetch : string → Js.exn + option Channel;
  guilds_cache : list GuildEntry
}.

Record User := {
  user_id : string;
  username : string;
  displayName : option string;
  displayAvatarURL : string;
  bot : bool
}.

Record Attachment := {
  att_id : string;
  att_name : option string;
  att_url : string;
  att_proxyURL : string;
  att_size : nat;
  att_contentType : option string;
  att_width : option nat;
  att_height : option nat
}.

Record EmbedField := {
  ef_name : string;
  ef_value : string;
  (** [None] when [field.inline] is not a boolean *)
  ef_inline : option bool
}.

Record EmbedAuthor := { ea_name : string; ea_iconURL : option string }.

Record Embed := {
  em_title : option string;
  em_description : option string;
  em_url : option string;
  em_color : option nat;
  em_thumbnail : option string;
  em_image : option string;
  em_author : option EmbedAuthor;
  em_fields : option (list EmbedField)
}.

Record MessageReaction := {
  emoji_name : option string;
  emoji_toString : string;
  count : nat
}.

(** The [Message] of the [messageCreate] and [messageUpdate] events. *)
Record Message := {
  message_id : string;
  content : string;
  author : User;
  createdAt : Js.Date;
  editedAt : option Js.Date;
  message_channel_id : string;
  message_guild : option Guild;
  attachments : list Attachment;
  embeds : list Embed;
  reactions : list MessageReaction
}.

(** The argument of the [messageDelete] event (typed [any]): only
    [message.id] and [message.channel.id] are read, and [message.channel]
    can be missing. *)
Record DeletedMessage := {
  deleted_id : string;
  deleted_channel_id : option string
}.

End Upstream.
(* ===================================================================== *)
(** ** The world of one connection and the monad of the handlers          *)
(* ===================================================================== *)

(** [socket.data], as [authenticateSocket] leaves it: [user] and
    [discordId] are set, [userId] and [permissions] are read by the handler
    but written nowhere. *)
Record SocketData := {
  data_username : string;
  data_discordId : string;
  data_userId : option string;
  data_permissions : option (list string)
}.

(** The fields of the [DiscordBot] singleton the handlers read or write. *)
Record Bot := {
  (** [io: Server | null]: [true] once [initialize] has stored the server *)
  io : bool;
  channelSubscriptions : gmap string (gset string)
}.

(** The fields of one [DiscordHandler] and of its socket. *)
Record Session := {
  data : SocketData;
  (** the delivery groups this socket is attached to *)
  rooms : gset string;
  joinedChannels : StringSet.t
}.

Record World := {
  discordBot : Bot;
  session : Session
}.

(** A method body: it reads and writes the world, asks the transport and
    the console for the listed effects (oldest first), and either returns or
    throws. A throw keeps the writes and the effects made before it. *)
Definition M (A : Type) : Type := World → (Js.exn + A) * World * list Wire.effect.

#[global] Instance M_ret : MRet M := λ A (a : A) (w : World), (inr a, w, []).

#[global] Instance M_bind : MBind M := λ A B (f : A → M B) (m : M A) (w : World),
  match m w with
  | (inr a, w1, t1) => let '(r, w2, t2) := f a w1 in (r, w2, t1 ++ t2)
  | (inl e, w1, t1) => (inl e, w1, t1)
  end.

Definition throw {A} (e : Js.exn) : M A := λ w, (inl e, w, []).

(** [try { body } catch (error) { handler }] *)
Definition try_catch {A} (body : M A) (handler : Js.exn → M A) : M A := λ w,
  match body w with
  | (inr a, w1, t1) => (inr a, w1, t1)
  | (inl e, w1, t1) => let '(r, w2, t2) := handler e w1 in (r, w2, t1 ++ t2)
  end.

(** The result of an awaited collaborator call: a rejection is thrown. *)
Definition await {A} (r : Js.exn + A) : M A := λ w, (r, w, []).

Definition get_world : M World := λ w, (inr w, w, []).

Definition do_effect (e : Wire.effect) : M unit := λ w, (inr tt, w, [e]).

Definition set_subscriptions (m : gmap string (gset string)) : M unit := λ w,
  (inr tt,
   {| discordBot := {| io := io (discordBot w); channelSubscriptions := m |};
      session := session w |},
   []).

Definition set_rooms (r : gset string) : M unit := λ w,
  (inr tt,
   {| discordBot := discordBot w;
      session := {| data := data (session w); rooms := r;
                    joinedChannels := joinedChannels (session w) |} |},
   []).

Definition set_joinedChannels (j : StringSet.t) : M unit := λ w,
  (inr tt,
   {| discordBot := discordBot w;
      session := {| data := data (session w); rooms := rooms (session w);
                    joinedChannels := j |} |},
   []).

Definition console (line : string) : M unit := do_effect (Wire.Console line None).

Definition console_error (line : string) (e : Js.exn) : M unit :=
  do_effect (Wire.Console line (Some e)).

(** What a method leaves: whether it threw, the world, and what it asked
    for on the way. *)
Definition result {A} (m : M A) (w : World) : Js.exn + A := (m w).1.1.
Definition exec {A} (m : M A) (w : World) : World := (m w).1.2.
Definition emitted {A} (m : M A) (w : World) : list Wire.effect := (m w).2.

(** A body that only computes: it writes nothing and asks for nothing. *)
Definition silent {A} (m : M A) : Prop :=
  ∀ w, exec m w = w ∧ emitted m w = [].

(** [for (const x of xs) { body }] *)
Fixpoint for_of {A} (xs : list A) (body : A → M unit) : M unit :=
  match xs with
  | [] => mret tt
  | x :: rest => body x ;; for_of rest body
  end.

(** [xs.filter(pred)] with a predicate that can throw *)
Fixpoint filter_of {A} (xs : list A) (pred : A → M bool) : M (list A) :=
  match xs with
  | [] => mret []
  | x :: rest =>
      keep ← pred x;
      kept ← filter_of rest pred;
      mret (if (keep : bool) then x :: kept else kept)
  end.

(** [xs.map(f)] with a callback that can throw *)
Fixpoint map_of {A B} (xs : list A) (f : A → M B) : M (list B) :=
  match xs with
  | [] => mret []
  | x :: rest =>
      y ← f x;
      ys ← map_of rest f;
      mret (y :: ys)
  end.

(* ===================================================================== *)
(** ** [class DiscordBot] ([src/services/discord-bot.ts])                 *)
(* ===================================================================== *)

Module DiscordBot.

Import Upstream.

Definition formatAttachment (att : Attachment) : Wire.Attachment :=
  {| Wire.attachment_id := att_id att;
     Wire.attachment_filename := Js.or_string (att_name att) "unknown";
     Wire.attachment_url := att_url att;
     Wire.attachment_proxyUrl := att_proxyURL att;
     Wire.attachment_size := att_size att;
     Wire.attachment_contentType := Js.or_string (att_contentType att) "";
     Wire.attachment_width := Js.or_zero (att_width att);
     Wire.attachment_height := Js.or_zero (att_height att) |}.

Definition formatField (field : EmbedField) : Wire.EmbedField :=
  {| Wire.field_name := ef_name field;
     Wire.field_value := ef_value field;
     Wire.field_inline := default false (ef_inline field) |}.

Definition formatEmbed (embed : Embed) : Wire.Embed :=
  {| Wire.embed_title := Js.or_string (em_title embed) "";
     Wire.embed_description := Js.or_string (em_description embed) "";
     Wire.embed_url := Js.or_string (em_url embed) "";
     Wire.embed_color := Js.nullish_zero (em_color embed);
     Wire.embed_thumbnail_url := default "" (em_thumbnail embed);
     Wire.embed_image_url := default "" (em_image embed);
     Wire.embed_author_name :=
       match em_author embed with Some a => ea_name a | None => "" end;
     Wire.embed_author_iconUrl :=
       match em_author embed with
       | Some a => if Js.truthy (ea_iconURL a) then ea_iconURL a else None
       | None => None
       end;
     Wire.embed_fields :=
       match em_fields embed with Some fs => formatField <$> fs | None => [] end |}.

Definition formatReaction (reaction : MessageReaction) : Wire.Reaction :=
  {| Wire.reaction_emoji := Js.or_string (emoji_name reaction) (emoji_toString reaction);
     Wire.reaction_count := count reaction;
     Wire.reaction_users := [] |}.

(** [formatMessage]: the only step that can throw is
    [message.createdAt.toISOString()]. *)
Definition formatMessage (message : Message) : M Wire.DiscordMessage :=
  timestamp ← await (Js.toISOString (createdAt message));
  mret {| Wire.id := message_id message;
          Wire.content := content message;
          Wire.author :=
            {| Wire.author_id := user_id (author message);
               Wire.author_username := username (author message);
               Wire.author_displayName :=
                 Js.or_string (displayName (author message)) (username (author message));
               Wire.author_avatar := displayAvatarURL (author message);
               Wire.author_bot := bot (author message) |};
          Wire.timestamp := timestamp;
          Wire.channelId := message_channel_id message;
          Wire.serverId :=
            match message_guild message with Some g => guild_id g | None => "" end;
          Wire.attachments := formatAttachment <$> attachments message;
          Wire.embeds := formatEmbed <$> embeds message;
          Wire.reactions := formatReaction <$> reactions message;
          Wire.edited := false;
          Wire.editedTimestamp := "" |}.

(** [this.io?.of('/discord').to(room).emit(event, p)]: nothing when [io]
    is still [null]. *)
Definition io_emit (room event : string) (p : Wire.payload) : M unit :=
  w ← get_world;
  if io (discordBot w) then do_effect (Wire.NamespaceTo room event p) else mret tt.

(** [handleNewMessage] *)
Definition handleNewMessage (message : Message) : M unit :=
  if bot (author message) then mret tt
  else
    let channelId := message_channel_id message in
    w ← get_world;
    match Registry.get channelId (channelSubscriptions (discordBot w)) with
    | None => mret tt
    | Some subscribers =>
        if decide (size subscribers = 0) then mret tt
        else
          try_catch
            (formattedMessage ← formatMessage message;
             console "Formatted message to emit:";;
             io_emit (Wire.room_of channelId) "message" (Wire.Message formattedMessage);;
             console "Message from ... in #...")
            (λ error, console_error "Error handling new message:" error)
    end.

(** [formattedMessage.edited = true;
     formattedMessage.editedTimestamp = message.editedAt?.toISOString() || ''] *)
Definition mark_edited (fm : Wire.DiscordMessage) (editedTimestamp : string)
  : Wire.DiscordMessage :=
  {| Wire.id := Wire.id fm;
     Wire.content := Wire.content fm;
     Wire.author := Wire.author fm;
     Wire.timestamp := Wire.timestamp fm;
     Wire.channelId := Wire.channelId fm;
     Wire.serverId := Wire.serverId fm;
     Wire.attachments := Wire.attachments fm;
     Wire.embeds := Wire.embeds fm;
     Wire.reactions := Wire.reactions fm;
     Wire.edited := true;
     Wire.editedTimestamp := editedTimestamp |}.

(** [handleMessageUpdate] *)
Definition handleMessageUpdate (message : Message) : M unit :=
  if bot (author message) then mret tt
  else
    try_catch
      (formattedMessage ← formatMessage message;
       editedTimestamp ←
         match editedAt message with
         | Some d => iso ← await (Js.toISOString d); mret (Js.or_string (Some iso) "")
         | None => mret ""
         end;
       io_emit (Wire.room_of (message_channel_id message)) "message_update"
               (Wire.Message (mark_edited formattedMessage editedTimestamp)))
      (λ error, console_error "Error handling message update:" error).

(** [handleMessageDelete]. The whole emit is one optional chain on
    [this.io]: while [io] is [null] nothing of it is evaluated, its
    arguments included. Otherwise reading [message.channel.id] of a message
    whose channel is missing throws a [TypeError], inside the [try]. *)
Definition handleMessageDelete (message : DeletedMessage) : M unit :=
  try_catch
    (w ← get_world;
     if io (discordBot w)
     then
       channel_id ←
         match deleted_channel_id message with
         | Some c => mret c
         | None =>
             throw (Js.Throw Js.TypeError "Cannot read properties of undefined (reading 'id')")
         end;
       do_effect (Wire.NamespaceTo (Wire.room_of channel_id) "message_delete"
                    (Wire.MessageDelete (deleted_id message) channel_id))
     else mret tt)
    (λ error, console_error "Error handling message delete:" error).

(** The events of the gateway client that [setupEventHandlers] relays. *)
Inductive event :=
| messageCreate (message : Message)
| messageUpdate (partial : bool) (newMessage : Message)
| messageDelete (message : DeletedMessage).

(** The three listeners registered by [setupEventHandlers]. *)
Definition on (e : event) : M unit :=
  match e with
  | messageCreate message => handleNewMessage message
  | messageUpdate partial newMessage =>
      if partial then mret tt else handleMessageUpdate newMessage
  | messageDelete message => handleMessageDelete message
  end.

(** The channel an event is about. *)
Definition event_channel (e : event) : option string :=
  match e with
  | messageCreate message => Some (message_channel_id message)
  | messageUpdate _ newMessage => Some (message_channel_id newMessage)
  | messageDelete message => deleted_channel_id message
  end.

(** The relay drops an event when it makes no emit call on the transport
    in any world where the event's channel has no subscriber. *)
Definition dropped_without_subscribers (e : event) : Prop :=
  ∀ w channelId,
    event_channel e = Some channelId →
    Registry.listSubscribers channelId (channelSubscriptions (discordBot w)) = ∅ →
    filter Wire.is_transport_emit (emitted (on e) w) = [].

(** The author of a created or updated message. *)
Definition event_author (e : event) : option User :=
  match e with
  | messageCreate message => Some (author message)
  | messageUpdate _ newMessage => Some (author newMessage)
  | messageDelete _ => None
  end.

(** [subscribeToChannel] *)
Definition subscribeToChannel (channelId userId : string) : M unit :=
  w ← get_world;
  set_subscriptions
    (Registry.subscribeToChannel channelId userId (channelSubscriptions (discordBot w)));;
  console "User ... subscribed to channel ...".

(** [unsubscribeFromChannel]: the line is printed only when the channel
    had an entry. *)
Definition unsubscribeFromChannel (channelId userId : string) : M unit :=
  w ← get_world;
  let m := channelSubscriptions (discordBot w) in
  set_subscriptions (Registry.unsubscribeFromChannel channelId userId m);;
  match Registry.get channelId m with
  | Some _ => console "User ... unsubscribed from channel ..."
  | None => mret tt
  end.

(** [getChannelInfo] *)
Definition getChannelInfo (up : Upstream.t) (channelId : string) : M Wire.ChannelInfo :=
  try_catch
    (channel ← await (channels_fetch up channelId);
     match channel with
     | None => throw (Js.Throw Js.Error "Channel not found or not text-based")
     | Some channel =>
         if negb (default false (isTextBased channel))
         then throw (Js.Throw Js.Error "Channel not found or not text-based")
         else mret {| Wire.info_id := id channel;
                      Wire.info_name := default "" (name channel);
                      Wire.info_type := type channel;
                      Wire.info_serverId :=
                        match guild channel with Some g => guild_id g | None => "" end;
                      Wire.info_serverName :=
                        match guild channel with Some g => guild_name g | None => "" end |}
     end)
    (λ error, console_error "Error getting channel info:" error;; throw error).

(** [channel.permissionsFor(member).has(p)]: a [TypeError] when
    [permissionsFor] gave [null]. *)
Definition has_permission (channel : Channel) (member : GuildMember) (p : string) : M bool :=
  match permissionsFor channel member with
  | Some granted => mret (bool_decide (p ∈ granted))
  | None => throw (Js.Throw Js.TypeError "Cannot read properties of null (reading 'has')")
  end.

(** The predicate of [guild.channels.cache.filter], with the short circuit
    of [&&]. *)
Definition is_visible_text_channel (member : GuildMember) (channel : Channel) : M bool :=
  if default false (isTextBased channel) && bool_decide (type channel = 0)
  then has_permission channel member "ViewChannel"
  else mret false.

(** The object pushed for one channel. *)
Definition describe (g : Guild) (member : GuildMember) (channel : Channel)
  : M Wire.ChannelDescriptor :=
  canRead ← has_permission channel member "ViewChannel";
  canWrite ← has_permission channel member "SendMessages";
  canManage ← has_permission channel member "ManageChannels";
  mret {| Wire.channel_id := id channel;
          Wire.channel_name := default "" (name channel);
          Wire.channel_type := "text";
          Wire.channel_serverId := guild_id g;
          Wire.channel_serverName := guild_name g;
          Wire.channel_position := default 0 (position channel);
          Wire.channel_unreadCount := 0;
          Wire.channel_isActive := false;
          Wire.channel_permissions :=
            {| Wire.canRead := canRead; Wire.canWrite := canWrite;
               Wire.canManage := canManage |} |}.

(** The body of the loop over [client.guilds.cache.values()]: the
    channels one guild adds to the local array. *)
Definition guild_channels (userId : string) (entry : GuildEntry)
  : M (list Wire.ChannelDescriptor) :=
  (* [await guild.members.fetch(userId).catch(() => null)] *)
  match members_fetch entry userId with
  | inl _ => mret []
  | inr member =>
      textChannels ← filter_of (channels_cache entry) (is_visible_text_channel member);
      map_of textChannels (describe (entry_guild entry) member)
  end.

(** The [try] block of [getUserChannels]: the loop over the guilds and
    [return channels]. *)
Definition collect_channels (up : Upstream.t) (userId : string)
  : M (list Wire.ChannelDescriptor) :=
  per_guild ← map_of (guilds_cache up) (guild_channels userId);
  mret (concat per_guild).

(** [getUserChannels]: any throw inside the loop gives the empty list,
    the channels gathered before it included. *)
Definition getUserChannels (up : Upstream.t) (userId : string)
  : M (list Wire.ChannelDescriptor) :=
  try_catch
    (collect_channels up userId)
    (λ error, console_error "Error getting user channels:" error;; mret []).

End DiscordBot.

(* ===================================================================== *)
(** ** [class DiscordHandler] ([src/handlers/discord-handler.ts])         *)
(* ===================================================================== *)

Module DiscordHandler.

(** [callback?.(r)] *)
Definition ack (callback : bool) (r : Wire.effect) : M unit :=
  if callback then do_effect r else mret tt.

(** [await this.socket.join(room)] and [await this.socket.leave(room)],
    on the in-memory adapter, where neither can fail. *)
Definition socket_join (room : string) : M unit :=
  w ← get_world; set_rooms (rooms (session w) ∪ {[room]}).

Definition socket_leave (room : string) : M unit :=
  w ← get_world; set_rooms (rooms (session w) ∖ {[room]}).

Definition log_error (e : Js.exn) (context : string) : M unit :=
  w ← get_world;
  do_effect (Wire.LogError e context (data_userId (data (session w)))).

(** [sendInitialData] *)
Definition sendInitialData (up : Upstream.t) : M unit :=
  try_catch
    (w ← get_world;
     channels ← DiscordBot.getUserChannels up (data_discordId (data (session w)));
     do_effect (Wire.SocketEmit "channels" (Wire.Channels channels));;
     do_effect (Wire.SocketEmit "user_info"
                  (Wire.UserInfo (data_userId (data (session w)))
                                 (data_username (data (session w)))
                                 (data_permissions (data (session w)))));;
     console "Sent initial data to user ...")
    (λ error,
       log_error error "sendInitialData";;
       do_effect (Wire.SocketEmit "error"
                    (Wire.ErrorEvent "INITIALIZATION_FAILED" "Failed to load initial data" "HIGH"))).

(** [handleGetChannels(callback?)], over the method it awaits:
    [getUserChannels] stands for [this.discordBot.getUserChannels]. *)
Definition handleGetChannels_with
    (getUserChannels : string → M (list Wire.ChannelDescriptor)) (callback : bool)
  : M unit :=
  try_catch
    (w ← get_world;
     channels ← getUserChannels (data_discordId (data (session w)));
     do_effect (Wire.SocketEmit "channels_list" (Wire.Channels channels));;
     ack callback (Wire.AckGetChannels
                     {| Wire.gc_success := true; Wire.gc_error := None;
                        Wire.gc_channels := channels |});;
     console "Fetched ... channels for user ...")
    (λ error,
       log_error error "handleGetChannels";;
       ack callback (Wire.AckGetChannels
                       {| Wire.gc_success := false;
                          Wire.gc_error := Some "Failed to fetch channels";
                          Wire.gc_channels := [] |});;
       do_effect (Wire.SocketEmit "error"
                    (Wire.ErrorEvent "CHANNELS_FETCH_FAILED" "Unable to fetch channels" "MEDIUM"))).

(** [handleGetChannels(callback?)] on the bot of this repository. *)
Definition handleGetChannels (up : Upstream.t) (callback : bool) : M unit :=
  handleGetChannels_with (DiscordBot.getUserChannels up) callback.

(** The descriptor [handleJoinChannel] emits on the ['channels'] event. *)
Definition joined_descriptor (channelId : string) (channelInfo : Wire.ChannelInfo)
  : Wire.ChannelDescriptor :=
  {| Wire.channel_id := channelId;
     Wire.channel_name := Wire.info_name channelInfo;
     Wire.channel_type := "text";
     Wire.channel_serverId := Wire.info_serverId channelInfo;
     Wire.channel_serverName := Wire.info_serverName channelInfo;
     Wire.channel_position := 0;
     Wire.channel_unreadCount := 0;
     Wire.channel_isActive := true;
     Wire.channel_permissions :=
       {| Wire.canRead := true; Wire.canWrite := true; Wire.canManage := false |} |}.

Definition join_already (channelId : string) : Wire.JoinChannelResponse :=
  {| Wire.jc_success := true; Wire.jc_channelId := Some channelId;
     Wire.jc_alreadyJoined := Some true; Wire.jc_error := None |}.

Definition join_ok (channelId : string) : Wire.JoinChannelResponse :=
  {| Wire.jc_success := true; Wire.jc_channelId := Some channelId;
     Wire.jc_alreadyJoined := None; Wire.jc_error := None |}.

Definition join_failed : Wire.JoinChannelResponse :=
  {| Wire.jc_success := false; Wire.jc_channelId := None;
     Wire.jc_alreadyJoined := None; Wire.jc_error := Some "Failed to join channel" |}.

(** [handleJoinChannel(data, callback?)], with [channelId] the field of
    [data]. *)
Definition handleJoinChannel (up : Upstream.t) (channelId : string) (callback : bool)
  : M unit :=
  try_catch
    (w ← get_world;
     if StringSet.has channelId (joinedChannels (session w))
     then ack callback (Wire.AckJoin (join_already channelId))
     else
       channelInfo ← DiscordBot.getChannelInfo up channelId;
       socket_join (Wire.room_of channelId);;
       w1 ← get_world;
       set_joinedChannels (StringSet.add channelId (joinedChannels (session w1)));;
       DiscordBot.subscribeToChannel channelId (data_discordId (data (session w)));;
       do_effect (Wire.SocketEmit "channels"
                    (Wire.Channel (joined_descriptor channelId channelInfo)));;
       ack callback (Wire.AckJoin (join_ok channelId));;
       console "User ... joined channel ...")
    (λ error,
       log_error error "handleJoinChannel";;
       console_error "Error joining channel:" error;;
       ack callback (Wire.AckJoin join_failed)).

(** The four steps of a join, as they show afterwards: the socket is in
    the delivery group, the channel is in the joined-set, the principal is
    in the channel's subscriber set, and the descriptor was emitted. *)
Definition group_attached (channelId : string) (w : World) : Prop :=
  Wire.room_of channelId ∈ rooms (session w).

Definition locally_joined (channelId : string) (w : World) : Prop :=
  channelId ∈ joinedChannels (session w).

Definition registry_subscribed (channelId : string) (w : World) : Prop :=
  data_discordId (data (session w))
    ∈ Registry.listSubscribers channelId (channelSubscriptions (discordBot w)).

Definition confirmation_sent (channelId : string) (t : list Wire.effect) : Prop :=
  ∃ d, Wire.SocketEmit "channels" (Wire.Channel d) ∈ t ∧ Wire.channel_id d = channelId.

(** [const { channelId } = data], the first statement of the [try] of
    the join and leave handlers. [payload] is the [data] the client sent: [Some
    channelId] for an object with that field, [None] for a packet without
    payload, whose destructuring throws a [TypeError] (a [null] payload
    throws the same error, named [null] in its message). *)
Definition destructure_channelId (payload : option string) : M string :=
  match payload with
  | Some channelId => mret channelId
  | None =>
      throw (Js.Throw Js.TypeError
               "Cannot destructure property 'channelId' of 'data' as it is undefined.")
  end.

Definition leave_failed : Wire.LeaveChannelResponse :=
  {| Wire.lc_success := false; Wire.lc_channelId := None;
     Wire.lc_error := Some "Failed to leave channel" |}.

(** [handleLeaveChannel(data, callback?)] *)
Definition handleLeaveChannel (payload : option string) (callback : bool) : M unit :=
  try_catch
    (channelId ← destructure_channelId payload;
     socket_leave (Wire.room_of channelId);;
     w ← get_world;
     set_joinedChannels (StringSet.delete channelId (joinedChannels (session w)));;
     DiscordBot.unsubscribeFromChannel channelId (data_discordId (data (session w)));;
     ack callback (Wire.AckLeave
                     {| Wire.lc_success := true; Wire.lc_channelId := Some channelId;
                        Wire.lc_error := None |});;
     console "User ... left channel ...")
    (λ error,
       log_error error "handleLeaveChannel";;
       console_error "Error leaving channel:" error;;
       ack callback (Wire.AckLeave leave_failed)).



(** The [user_left] notification of one channel. *)
Definition user_left (w : World) (channelId : string) : Wire.effect :=
  Wire.SocketTo (Wire.room_of channelId) "user_left"
    (Wire.UserLeft channelId (data_userId (data (session w)))
                   (data_username (data (session w)))).

(** The body of the loop of [handleDisconnect]. *)
Definition leave_on_disconnect (channelId : string) : M unit :=
  w ← get_world;
  DiscordBot.unsubscribeFromChannel channelId (data_discordId (data (session w)));;
  do_effect (user_left w channelId).

(** [handleDisconnect(reason)] *)
Definition handleDisconnect : M unit :=
  console "User ... disconnected: ...";;
  w ← get_world;
  for_of (joinedChannels (session w)) leave_on_disconnect;;
  w1 ← get_world;
  set_joinedChannels (StringSet.clear (joinedChannels (session w1))).

End DiscordHandler.

(* ===================================================================== *)
(** ** [authenticateSocket] ([src/middleware/auth.ts])                    *)
(* ===================================================================== *)

Module Auth.

(** The decoded token, typed [AuthPayload]; the two fields the middleware
    tests can be missing or empty. *)
Record AuthPayload := {
  username : option string;
  discord_id : option string
}.

(** What one run of the middleware did: the message of the error given to
    [next] ([None] for the plain [next()]) and the two fields of
    [socket.data] it wrote. *)
Record outcome := {
  next_error : option string;
  socket_user : option AuthPayload;
  socket_discordId : option string
}.

Definition reject (message : string) : outcome :=
  {| next_error := Some message; socket_user := None; socket_discordId := None |}.

Definition accept (decoded : AuthPayload) : outcome :=
  {| next_error := None; socket_user := Some decoded;
     socket_discordId := discord_id decoded |}.

(** The [try] block. [verify token] is
    [jwt.verify(token, process.env['JWT_SECRET'])]: the decoded payload,
    or the error it throws. *)
Definition authenticate_try (verify : string → Js.exn + AuthPayload)
    (token : option string) : Js.exn + outcome :=
  match token with
  | None => inr (reject "Authentication token required")
  | Some tok =>
      if negb (Js.truthy token) then inr (reject "Authentication token required")
      else
        match verify tok with
        | inl error => inl error
        | inr decoded =>
            if negb (Js.truthy (username decoded)) || negb (Js.truthy (discord_id decoded))
            then inr (reject "Invalid token payload")
            else inr (accept decoded)
        end
  end.

(** The [catch] block. *)
Definition authenticate_catch (error : Js.exn) : outcome :=
  if Js.instanceOf error Js.JsonWebTokenError
  then reject "Invalid authentication token"
  else if Js.instanceOf error Js.TokenExpiredError
  then reject "Authentication token expired"
  else reject "Authentication failed".

(** [authenticateSocket(socket, next)], with [token] the value of
    [socket.handshake.auth['token']]. *)
Definition authenticateSocket (verify : string → Js.exn + AuthPayload)
    (token : option string) : outcome :=
  match authenticate_try verify token with
  | inr o => o
  | inl error => authenticate_catch error
  end.

End Auth.
(* ===================================================================== *)
(** ** A small deployment, for the examples                               *)
(* ===================================================================== *)

Module Sample.

Definition guild : Upstream.Guild :=
  {| Upstream.guild_id := "G1"; Upstream.guild_name := "Guild One" |}.

(** A text channel every member can view. *)
Definition general : Upstream.Channel :=
  {| Upstream.id := "C1";
     Upstream.isTextBased := Some true;
     Upstream.name := Some "general";
     Upstream.type := 0;
     Upstream.guild := Some guild;
     Upstream.position := Some 1;
     Upstream.permissionsFor := λ _, Some ["ViewChannel"; "SendMessages"] |}.

(** A text channel whose permissions cannot be resolved. *)
Definition broken : Upstream.Channel :=
  {| Upstream.id := "C2";
     Upstream.isTextBased := Some true;
     Upstream.name := Some "broken";
     Upstream.type := 0;
     Upstream.guild := Some guild;
     Upstream.position := None;
     Upstream.permissionsFor := λ _, None |}.

Definition fetch_general (channelId : string) : Js.exn + option Upstream.Channel :=
  if decide (channelId = "C1") then inr (Some general)
  else inl (Js.Throw Js.Error "Unknown Channel").

Definition discord : Upstream.t :=
  {| Upstream.channels_fetch := fetch_general;
     Upstream.guilds_cache :=
       [ {| Upstream.entry_guild := guild;
            Upstream.members_fetch := λ u, inr {| Upstream.member_id := u |};
            Upstream.channels_cache := [general] |} ] |}.

(** The same server with the unresolvable channel in its cache. *)
Definition discord_broken : Upstream.t :=
  {| Upstream.channels_fetch := fetch_general;
     Upstream.guilds_cache :=
       [ {| Upstream.entry_guild := guild;
            Upstream.members_fetch := λ u, inr {| Upstream.member_id := u |};
            Upstream.channels_cache := [general; broken] |} ] |}.

Definition alice : SocketData :=
  {| data_username := "alice"; data_discordId := "U1";
     data_userId := None; data_permissions := None |}.

(** A started server with one connection that has joined nothing. *)
Definition fresh : World :=
  {| discordBot := {| io := true; channelSubscriptions := Registry.empty |};
     session := {| data := alice; rooms := ∅; joinedChannels := StringSet.empty |} |}.

(** The same connection after it joined [C1]. *)
Definition joined : World :=
  exec (DiscordHandler.handleJoinChannel discord "C1" true) fresh.

Definition user (is_bot : bool) : Upstream.User :=
  {| Upstream.user_id := "A1"; Upstream.username := "bob";
     Upstream.displayName := None; Upstream.displayAvatarURL := "https://cdn/a1.png";
     Upstream.bot := is_bot |}.

(** A message in [C1] with content ["hi"]. *)
Definition hi (is_bot : bool) : Upstream.Message :=
  {| Upstream.message_id := "M1";
     Upstream.content := "hi";
     Upstream.author := user is_bot;
     Upstream.createdAt := Some "2024-01-01T00:00:00.000Z";
     Upstream.editedAt := None;
     Upstream.message_channel_id := "C1";
     Upstream.message_guild := Some guild;
     Upstream.attachments := [];
     Upstream.embeds := [];
     Upstream.reactions := [] |}.

Definition hi_deleted : Upstream.DeletedMessage :=
  {| Upstream.deleted_id := "M1"; Upstream.deleted_channel_id := Some "C1" |}.

(** The wire record of [hi false]. *)
Definition hi_wire (is_edited : bool) : Wire.DiscordMessage :=
  {| Wire.id := "M1";
     Wire.content := "hi";
     Wire.author :=
       {| Wire.author_id := "A1"; Wire.author_username := "bob";
          Wire.author_displayName := "bob"; Wire.author_avatar := "https://cdn/a1.png";
          Wire.author_bot := false |};
     Wire.timestamp := "2024-01-01T00:00:00.000Z";
     Wire.channelId := "C1";
     Wire.serverId := "G1";
     Wire.attachments := [];
     Wire.embeds := [];
     Wire.reactions := [];
     Wire.edited := is_edited;
     Wire.editedTimestamp := "" |}.

(** [jwt.verify] on an expired token. *)
Definition verify_expired (token : string) : Js.exn + Auth.AuthPayload :=
  inl (Js.Throw Js.TokenExpiredError "jwt expired").

End Sample.

(* ===================================================================== *)
(** ** The other socket middlewares of [src/middleware/auth.ts]           *)
(* ===================================================================== *)

Module SocketGuards.

(** [requirePermission(permission)(socket, next)]: the message of the
    error given to [next], [None] for the plain [next()]. [permissions] is
    [socket.data.permissions], which [|| []] reads as empty when unset. The
    [catch] of the source ('Permission check failed') needs [includes] to
    throw, which it does not on a list. *)
Definition requirePermission (permission : string) (permissions : option (list string))
  : option string :=
  let granted := default [] permissions in
  if negb (bool_decide (permission ∈ granted)) && negb (bool_decide ("admin" ∈ granted))
  then Some ("Permission denied: " +:+ permission +:+ " required")
  else None.

(** [requireChannelAccess(channelId)(socket, next)], with [userId] the
    value of [socket.data.userId]. The channel is not looked at. *)
Definition requireChannelAccess (channelId : string) (userId : option string)
  : option string :=
  if negb (Js.truthy userId) then Some "Authentication required" else None.

(** [socket.data] with the four fields this file declares for it; a
    field nobody has written is [None]. *)
Record SocketFields := {
  user : option Auth.AuthPayload;
  userId : option string;
  discordId : option string;
  permissions : option (list string)
}.

(** The [socket.data] of a socket that just connected: [{}]. *)
Definition unset : SocketFields :=
  {| user := None; userId := None; discordId := None; permissions := None |}.

(** The writes of [authenticateSocket] on [socket.data]: [user] and
    [discordId] when it accepts, nothing when it refuses. *)
Definition authenticated (o : Auth.outcome) (d : SocketFields) : SocketFields :=
  match Auth.next_error o with
  | Some _ => d
  | None => {| user := Auth.socket_user o; userId := userId d;
               discordId := Auth.socket_discordId o; permissions := permissions d |}
  end.

End SocketGuards.

(* ===================================================================== *)
(** ** The HTTP side: [verifyToken], [authMiddleware] and
       [GET /channels] of [src/routes/discord.ts]                         *)
(* ===================================================================== *)

Module Http.

(** [s.split(' ')] *)
Fixpoint split_space (s : string) : list string :=
  match s with
  | EmptyString => [""]
  | String c rest =>
      if decide (c = Ascii.Space) then "" :: split_space rest
      else match split_space rest with
           | piece :: pieces => String c piece :: pieces
           | [] => [String c ""]
           end
  end.

(** Whether a string has a space in it. *)
Fixpoint has_space (s : string) : bool :=
  match s with
  | EmptyString => false
  | String c rest => bool_decide (c = Ascii.Space) || has_space rest
  end.

(** [verifyToken(token)]: [secret] is [process.env['JWT_SECRET']] and
    [jwt_verify token secret] is [jwt.verify(token, secret)]. *)
Definition verifyToken (jwt_verify : string → string → Js.exn + Auth.AuthPayload)
    (secret : option string) (token : string) : Js.exn + Auth.AuthPayload :=
  match secret with
  | Some sec =>
      if negb (Js.truthy secret) then inl (Js.Throw Js.Error "JWT_SECRET is not set")
      else jwt_verify token sec
  | None => inl (Js.Throw Js.Error "JWT_SECRET is not set")
  end.

(** [res.status(code).json({status, data, message})]; a [res.json]
    without [res.status] answers with code 200. *)
Record reply := {
  code : nat;
  status : string;
  message : string;
  reply_data : list Wire.ChannelDescriptor
}.

(** What a middleware did: it answered, or it called [next()] after
    storing [req.user]. *)
Inductive passed :=
| Answered (r : reply)
| Next (user : Auth.AuthPayload).

Definition no_token : reply :=
  {| code := 401; status := "failed"; message := "No token provided"; reply_data := [] |}.

Definition invalid_token : reply :=
  {| code := 401; status := "failed"; message := "Invalid or expired token";
     reply_data := [] |}.

(** [authMiddleware(req, res, next)], with [authorization] the value of
    [req.headers.authorization]. A piece that [split] does not give is
    [undefined], on which [jwt.verify] throws; the [catch] answers as for any
    other throw. *)
Definition authMiddleware (jwt_verify : string → string → Js.exn + Auth.AuthPayload)
    (secret : option string) (authorization : option string) : passed :=
  match authorization with
  | None => Answered no_token
  | Some authHeader =>
      if negb (Js.truthy authorization) || negb (String.prefix "Bearer " authHeader)
      then Answered no_token
      else
        match split_space authHeader !! 1 with
        | Some token =>
            match verifyToken jwt_verify secret token with
            | inr user => Next user
            | inl _ => Answered invalid_token
            end
        | None => Answered invalid_token
        end
  end.

(** The handler of [router.get('/channels', authMiddleware, ...)], with
    [user] the value of [req.user]. *)
Definition channels_handler (up : Upstream.t) (user : option Auth.AuthPayload) : M reply :=
  try_catch
    (let discord_id := user ≫= Auth.discord_id in
     match discord_id with
     | Some id =>
         if negb (Js.truthy discord_id)
         then mret {| code := 401; status := "failed";
                      message := "Missing discord_id in user payload"; reply_data := [] |}
         else
           channels ← DiscordBot.getUserChannels up id;
           mret {| code := 200; status := "succeed";
                   message := "Fetched accessible channels"; reply_data := channels |}
     | None =>
         mret {| code := 401; status := "failed";
                 message := "Missing discord_id in user payload"; reply_data := [] |}
     end)
    (λ error,
       mret {| code := 200; status := "failed"; message := "Failed to fetch channels";
               reply_data := [] |}).

(** [GET /channels]: the middleware, then the handler. *)
Definition get_channels (jwt_verify : string → string → Js.exn + Auth.AuthPayload)
    (secret : option string) (up : Upstream.t) (authorization : option string) : M reply :=
  match authMiddleware jwt_verify secret authorization with
  | Answered r => mret r
  | Next user => channels_handler up (Some user)
  end.

End Http.

(* ===================================================================== *)
(** ** [DiscordBot.sendMessage]                                            *)
(* ===================================================================== *)

Module Outbound.

(** A fetched channel with its [send] method, when it has one
    (['send' in channel]); [send content] resolves to the created message. *)
Record Sendable := {
  channel : Upstream.Channel;
  send : option (string → Js.exn + Upstream.Message)
}.

(** What [sendMessage] returns. *)
Record Sent := {
  sent_id : string;
  sent_content : string;
  sent_timestamp : string
}.

(** [sendMessage(channelId, content, userId)]; [fetch] is
    [this.client.channels.fetch]. *)
Definition sendMessage (fetch : string → Js.exn + option Sendable)
    (channelId content userId : string) : M Sent :=
  try_catch
    (fetched ← await (fetch channelId);
     match fetched with
     | None => throw (Js.Throw Js.Error "Channel not found or not text-based")
     | Some c =>
         if negb (default false (Upstream.isTextBased (channel c)))
         then throw (Js.Throw Js.Error "Channel not found or not text-based")
         else
           match send c with
           | None => throw (Js.Throw Js.Error "Channel not found or not text-based")
           | Some send_content =>
               message ← await (send_content content);
               timestamp ← await (Js.toISOString (Upstream.createdAt message));
               mret {| sent_id := Upstream.message_id message;
                       sent_content := Upstream.content message;
                       sent_timestamp := timestamp |}
           end
     end)
    (λ error, console_error "Error sending message:" error;; throw error).

End Outbound.

(* ===================================================================== *)
(** ** One connection over time                                            *)
(* ===================================================================== *)

Module Connection.







End Connection.

(* ===================================================================== *)
(** ** More of the deployment, for the examples                            *)
(* ===================================================================== *)

Module Sample2.

(** [hi false] with a creation date that is not a date. *)
Definition undated : Upstream.Message :=
  {| Upstream.message_id := "M2";
     Upstream.content := "when";
     Upstream.author := Sample.user false;
     Upstream.createdAt := None;
     Upstream.editedAt := None;
     Upstream.message_channel_id := "C1";
     Upstream.message_guild := Some Sample.guild;
     Upstream.attachments := [];
     Upstream.embeds := [];
     Upstream.reactions := [] |}.

(** A registry with two channels and three subscriptions. *)
Definition busy : gmap string (gset string) :=
  Registry.run [Registry.Subscribe "C1" "U1"; Registry.Subscribe "C1" "U2";
                Registry.Subscribe "C2" "U1"] Registry.empty.

(** [jwt.verify] that accepts the token ["good"] under the secret ["s3cret"]. *)
Definition jwt_verify (token secret : string) : Js.exn + Auth.AuthPayload :=
  if decide (token = "good" ∧ secret = "s3cret")
  then inr {| Auth.username := Some "alice"; Auth.discord_id := Some "U1" |}
  else inl (Js.Throw Js.JsonWebTokenError "invalid signature").

End Sample2.

(* ===================================================================== *)
(** ** A partial outage of the platform                                    *)
(* ===================================================================== *)

Module Outage.

Definition guild_two : Upstream.Guild :=
  {| Upstream.guild_id := "G2"; Upstream.guild_name := "Guild Two" |}.

(** A guild whose member lookup fails for a reason that has nothing to
    do with membership. *)
Definition unreachable : Upstream.GuildEntry :=
  {| Upstream.entry_guild := guild_two;
     Upstream.members_fetch := λ _, inl (Js.Throw Js.Error "Connect Timeout Error");
     Upstream.channels_cache := [Sample.general] |}.

Definition healthy : Upstream.GuildEntry :=
  {| Upstream.entry_guild := Sample.guild;
     Upstream.members_fetch := λ u, inr {| Upstream.member_id := u |};
     Upstream.channels_cache := [Sample.general] |}.

(** The bot is in two guilds; the platform answers for the first and
    times out for the second. *)
Definition discord : Upstream.t :=
  {| Upstream.channels_fetch := Sample.fetch_general;
     Upstream.guilds_cache := [healthy; unreachable] |}.




End Outage.

(* ===================================================================== *)
(** ** The registry, call by call                                          *)
(* ===================================================================== *)

Module RegistryLog.

(** Whether the last call of [cs] (oldest first) that names the pair
    [(channelId, userId)] is a [Subscribe]; [false] when no call names it. *)
Definition last_subscribes (channelId userId : string) (cs : list Registry.call) : bool :=
  foldl (λ b c,
           match c with
           | Registry.Subscribe ch u =>
               if decide (ch = channelId ∧ u = userId) then true else b
           | Registry.Unsubscribe ch u =>
               if decide (ch = channelId ∧ u = userId) then false else b
           end)
        false cs.

(** The channel and the subscriber a call names. *)
Definition names (c : Registry.call) : string * string :=
  match c with
  | Registry.Subscribe ch u => (ch, u)
  | Registry.Unsubscribe ch u => (ch, u)
  end.

End RegistryLog.

(* ===================================================================== *)
(** ** Properties of the registry                                         *)
(* ===================================================================== *)

Section registry_facts.
Import Registry.
Implicit Types (m : gmap string (gset string)) (ch u : string).

Lemma subscribe_lookup ch u m :
  subscribeToChannel ch u m !! ch = Some (listSubscribers ch m ∪ {[u]}).
Proof.
  unfold subscribeToChannel, listSubscribers.
  destruct (m !! ch) as [s|] eqn:E; simpl.
  - rewrite E. by rewrite lookup_insert_eq.
  - rewrite lookup_insert_eq. by rewrite lookup_insert_eq.
Qed.

Lemma subscribe_lookup_ne ch ch' u m :
  ch ≠ ch' → subscribeToChannel ch u m !! ch' = m !! ch'.
Proof.
  intros Hne. unfold subscribeToChannel.
  destruct (m !! ch) as [s|] eqn:E; simpl.
  - rewrite E. by rewrite lookup_insert_ne.
  - rewrite lookup_insert_eq. rewrite !lookup_insert_ne; done.
Qed.

Lemma subscribe_as_insert ch u m :
  subscribeToChannel ch u m = <[ch := listSubscribers ch m ∪ {[u]}]> m.
Proof.
  apply map_eq. intros k. destruct (decide (ch = k)) as [<-|Hne].
  - by rewrite subscribe_lookup, lookup_insert_eq.
  - by rewrite subscribe_lookup_ne, lookup_insert_ne.
Qed.

Lemma unsubscribe_lookup_ne ch ch' u m :
  ch ≠ ch' → unsubscribeFromChannel ch u m !! ch' = m !! ch'.
Proof.
  intros Hne. unfold unsubscribeFromChannel.
  destruct (m !! ch) as [s|] eqn:E; [|done].
  simpl. case_decide.
  - rewrite lookup_delete_ne by done. by rewrite lookup_insert_ne.
  - by rewrite lookup_insert_ne.
Qed.

Lemma unsubscribe_lookup ch u m :
  unsubscribeFromChannel ch u m !! ch =
    match m !! ch with
    | Some s => if decide (s ∖ {[u]} = ∅) then None else Some (s ∖ {[u]})
    | None => None
    end.
Proof.
  unfold unsubscribeFromChannel.
  destruct (m !! ch) as [s|] eqn:E; [|done].
  simpl. case_decide as Hsz.
  - apply size_empty_inv in Hsz. apply leibniz_equiv in Hsz.
    rewrite decide_True by done. by rewrite lookup_delete_eq.
  - rewrite decide_False.
    + by rewrite lookup_insert_eq.
    + intros Heq. apply Hsz. rewrite Heq. apply size_empty.
Qed.

Lemma listSubscribers_unsubscribe ch u m :
  listSubscribers ch (unsubscribeFromChannel ch u m) = listSubscribers ch m ∖ {[u]}.
Proof.
  unfold listSubscribers. rewrite unsubscribe_lookup.
  destruct (m !! ch) as [s|]; simpl.
  - case_decide as He; simpl; [by rewrite He | done].
  - simpl. by rewrite difference_disjoint_L by apply disjoint_empty_l.
Qed.

Lemma listSubscribers_unsubscribe_ne ch ch' u m :
  ch ≠ ch' →
  listSubscribers ch' (unsubscribeFromChannel ch u m) = listSubscribers ch' m.
Proof. intros. unfold listSubscribers. by rewrite unsubscribe_lookup_ne. Qed.

Lemma subscribe_no_empty_entry ch u m :
  no_empty_entry m → no_empty_entry (subscribeToChannel ch u m).
Proof.
  intros Hm k s. destruct (decide (ch = k)) as [<-|Hne].
  - rewrite subscribe_lookup. intros [= <-]. set_solver.
  - rewrite subscribe_lookup_ne by done. apply Hm.
Qed.

Lemma unsubscribe_no_empty_entry ch u m :
  no_empty_entry m → no_empty_entry (unsubscribeFromChannel ch u m).
Proof.
  intros Hm k s. destruct (decide (ch = k)) as [<-|Hne].
  - rewrite unsubscribe_lookup. destruct (m !! ch) as [s0|]; [|done].
    case_decide as He; [done|]. by intros [= <-].
  - rewrite unsubscribe_lookup_ne by done. apply Hm.
Qed.

Lemma run_snoc cs c m : run (cs ++ [c]) m = step (run cs m) c.
Proof. unfold run. by rewrite foldl_app. Qed.

Lemma run_no_empty_entry cs m :
  no_empty_entry m → no_empty_entry (run cs m).
Proof.
  revert m. induction cs as [|c cs IH]; intros m Hm; [done|].
  simpl. apply IH. destruct c; simpl.
  - by apply subscribe_no_empty_entry.
  - by apply unsubscribe_no_empty_entry.
Qed.

Lemma reachable_no_empty_entry m : reachable m → no_empty_entry m.
Proof. intros [cs ->]. apply run_no_empty_entry. intros k s. unfold empty. by rewrite lookup_empty. Qed.

Lemma reachable_step m c : reachable m → reachable (step m c).
Proof. intros [cs ->]. exists (cs ++ [c]). by rewrite run_snoc. Qed.

End registry_facts.

Section registry_claims.
Import Registry.
Implicit Types (m : gmap string (gset string)) (ch u : string).

Lemma listSubscribers_nonempty_iff m ch :
  no_empty_entry m → (is_Some (m !! ch) ↔ listSubscribers ch m ≠ ∅).
Proof.
  intros Hm. unfold listSubscribers. split.
  - intros [s Hs]. rewrite Hs. simpl. by apply (Hm ch).
  - destruct (m !! ch) as [s|]; [eauto | done].
Qed.

(** C1. After any sequence of [subscribeToChannel] and
    [unsubscribeFromChannel] calls on the empty registry, no stored
    subscriber set is empty, and a channel has an entry exactly when its
    subscriber set has a member. *)
Theorem registry_entry_iff_subscribed (cs : list call) (ch : string) :
  (∀ s, run cs empty !! ch = Some s → s ≠ ∅) ∧
  (is_Some (run cs empty !! ch) ↔ listSubscribers ch (run cs empty) ≠ ∅).
Proof.
  assert (no_empty_entry (run cs empty)) as Hinv.
  { apply reachable_no_empty_entry. by exists cs. }
  split.
  - intros s. apply Hinv.
  - by apply listSubscribers_nonempty_iff.
Qed.

Lemma subscribe_twice ch u m :
  subscribeToChannel ch u (subscribeToChannel ch u m) = subscribeToChannel ch u m.
Proof.
  rewrite (subscribe_as_insert ch u (subscribeToChannel ch u m)).
  unfold listSubscribers at 1. rewrite subscribe_lookup. simpl.
  rewrite subscribe_as_insert, insert_insert_eq. f_equal. set_solver.
Qed.

Lemma subscribe_size ch u m :
  (size m ≤ size (subscribeToChannel ch u m) ≤ size m + 1)%nat.
Proof.
  rewrite subscribe_as_insert, map_size_insert.
  destruct (m !! ch); simpl; lia.
Qed.

(** C7. Subscribing the same subscriber to the same channel a second time
    leaves the registry exactly as the first call left it, and one call
    adds at most one channel entry (and removes none). *)
Theorem subscribe_idempotent_one_entry (m : gmap string (gset string)) (ch u : string) :
  subscribeToChannel ch u (subscribeToChannel ch u m) = subscribeToChannel ch u m
  ∧ listSubscribers ch (subscribeToChannel ch u (subscribeToChannel ch u m))
    = listSubscribers ch (subscribeToChannel ch u m)
  ∧ (size m ≤ size (subscribeToChannel ch u m) ≤ size m + 1)%nat.
Proof.
  split; [apply subscribe_twice|].
  split; [by rewrite subscribe_twice | apply subscribe_size].
Qed.

Lemma unsubscribe_absent ch u m :
  no_empty_entry m → u ∉ listSubscribers ch m → unsubscribeFromChannel ch u m = m.
Proof.
  intros Hm Hu. apply map_eq. intros k. destruct (decide (ch = k)) as [<-|Hne].
  - rewrite unsubscribe_lookup. unfold listSubscribers in Hu.
    destruct (m !! ch) as [s|] eqn:E; [|done]. simpl in Hu.
    assert (s ∖ {[u]} = s) as -> by set_solver.
    rewrite decide_False; [done|]. by apply (Hm ch).
  - by rewrite unsubscribe_lookup_ne.
Qed.

End registry_claims.

(* ===================================================================== *)
(** ** The relay: [handleNewMessage], [handleMessageUpdate],
       [handleMessageDelete]                                              *)
(* ===================================================================== *)

(** Unfolds the plumbing of [M] and lets the matches on known results
    compute. *)
Ltac m_unfold :=
  cbv beta iota zeta delta
    [mbind M_bind mret M_ret get_world do_effect console console_error throw
     await try_catch set_subscriptions set_rooms set_joinedChannels
     result exec emitted].

Section relay.
Import DiscordBot.

Lemma handleNewMessage_bot message w :
  Upstream.bot (Upstream.author message) = true →
  handleNewMessage message w = (inr tt, w, []).
Proof. intros Hb. unfold handleNewMessage. by rewrite Hb. Qed.

Lemma handleMessageUpdate_bot message w :
  Upstream.bot (Upstream.author message) = true →
  handleMessageUpdate message w = (inr tt, w, []).
Proof. intros Hb. unfold handleMessageUpdate. by rewrite Hb. Qed.

(** C5. A created or updated message whose author has the bot flag set is
    dropped by its listener: nothing is emitted (no [message] event in
    particular), nothing is printed and the world is as before. *)
Theorem bot_authored_event_not_relayed
    (e : event) (a : Upstream.User) (w : World) :
  event_author e = Some a →
  Upstream.bot a = true →
  emitted (on e) w = [] ∧ exec (on e) w = w ∧ result (on e) w = inr tt.
Proof.
  intros Ha Hb. unfold emitted, exec, result.
  destruct e as [message | partial message | message]; simpl in *.
  - injection Ha as <-. by rewrite handleNewMessage_bot.
  - injection Ha as <-. destruct partial; [done|].
    by rewrite handleMessageUpdate_bot.
  - discriminate.
Qed.

Lemma sample_bot_message_dropped :
  emitted (on (messageCreate (Sample.hi true))) Sample.joined = []
  ∧ emitted (on (messageUpdate false (Sample.hi true))) Sample.joined = [].
Proof.
  split.
  - apply (bot_authored_event_not_relayed
             (messageCreate (Sample.hi true)) (Sample.user true) Sample.joined);
      reflexivity.
  - apply (bot_authored_event_not_relayed
             (messageUpdate false (Sample.hi true)) (Sample.user true) Sample.joined);
      reflexivity.
Defined.

(** [handleNewMessage] has the guard: with no subscriber for the channel
    the message is dropped before any work. *)
Lemma handleNewMessage_no_subscriber message w :
  Registry.listSubscribers (Upstream.message_channel_id message)
    (channelSubscriptions (discordBot w)) = ∅ →
  handleNewMessage message w = (inr tt, w, []).
Proof.
  intros Hs. unfold handleNewMessage.
  destruct (Upstream.bot (Upstream.author message)); [done|].
  unfold Registry.listSubscribers in Hs. unfold Registry.get. m_unfold.
  destruct (channelSubscriptions (discordBot w) !! _) as [s|]; [|done].
  simpl in Hs. subst s. by rewrite decide_True by apply size_empty.
Qed.

(** [handleMessageUpdate] has no such guard: for a message of a human
    author with valid dates, once the server is attached, the
    [message_update] event goes to the delivery group whatever the registry
    holds. *)
Lemma handleMessageUpdate_emits message w iso :
  Upstream.bot (Upstream.author message) = false →
  Upstream.createdAt message = Some iso →
  Upstream.editedAt message = None →
  io (discordBot w) = true →
  ∃ fm, emitted (handleMessageUpdate message) w =
          [Wire.NamespaceTo (Wire.room_of (Upstream.message_channel_id message))
                            "message_update" (Wire.Message fm)]
        ∧ Wire.edited fm = true.
Proof.
  intros Hb Hc He Hio. unfold handleMessageUpdate, formatMessage, io_emit.
  rewrite Hb, Hc, He. m_unfold. simpl. rewrite Hio. simpl. eauto.
Qed.

(** [handleMessageDelete] has none either. *)
Lemma handleMessageDelete_emits message w channel_id :
  Upstream.deleted_channel_id message = Some channel_id →
  io (discordBot w) = true →
  emitted (handleMessageDelete message) w =
    [Wire.NamespaceTo (Wire.room_of channel_id) "message_delete"
       (Wire.MessageDelete (Upstream.deleted_id message) channel_id)].
Proof.
  intros Hc Hio. unfold handleMessageDelete, io_emit.
  rewrite Hc. m_unfold. by rewrite Hio.
Qed.

(** Created messages are dropped when nobody is subscribed. *)
Lemma created_dropped_without_subscribers message :
  dropped_without_subscribers (messageCreate message).
Proof.
  intros w channelId [= <-] Hs. unfold emitted, on.
  by rewrite handleNewMessage_no_subscriber.
Qed.

(** C2 (what the code does at the failing input). In the started server
    where nobody has subscribed to anything, an edit and a deletion of a
    message of [C1] each make one emit call on the transport, while the
    creation of the same message makes none: updated and deleted messages
    are not dropped when nobody is subscribed. *)
Theorem update_and_delete_emit_without_subscribers :
  Registry.listSubscribers "C1" (channelSubscriptions (discordBot Sample.fresh)) = ∅
  ∧ emitted (on (messageCreate (Sample.hi false))) Sample.fresh = []
  ∧ emitted (on (messageUpdate false (Sample.hi false))) Sample.fresh =
      [Wire.NamespaceTo "channel:C1" "message_update" (Wire.Message (Sample.hi_wire true))]
  ∧ emitted (on (messageDelete Sample.hi_deleted)) Sample.fresh =
      [Wire.NamespaceTo "channel:C1" "message_delete" (Wire.MessageDelete "M1" "C1")]
  ∧ ¬ dropped_without_subscribers (messageUpdate false (Sample.hi false))
  ∧ ¬ dropped_without_subscribers (messageDelete Sample.hi_deleted).
Proof.
  do 4 (split; [reflexivity|]). split.
  - intros H. specialize (H Sample.fresh "C1" eq_refl eq_refl). discriminate H.
  - intros H. specialize (H Sample.fresh "C1" eq_refl eq_refl). discriminate H.
Qed.

End relay.

(* ===================================================================== *)
(** ** Bodies that only compute                                           *)
(* ===================================================================== *)

Section silent_bodies.

Lemma silent_run {A} (m : M A) w : silent m → m w = (result m w, w, []).
Proof.
  intros Hm. destruct (Hm w) as [Hw Ht]. unfold result, exec, emitted in *.
  destruct (m w) as [[r w1] t]. simpl in *. by subst.
Qed.

Lemma silent_ret {A} (a : A) : silent (mret a : M A).
Proof. by intros w. Qed.

Lemma silent_throw {A} (e : Js.exn) : silent (throw e : M A).
Proof. by intros w. Qed.

Lemma silent_await {A} (r : Js.exn + A) : silent (await r).
Proof. by intros w. Qed.

Lemma silent_bind {A B} (m : M A) (f : A → M B) :
  silent m → (∀ a, silent (f a)) → silent (m ≫= f).
Proof.
  intros Hm Hf w. unfold exec, emitted. m_unfold.
  rewrite (silent_run m w Hm). destruct (result m w) as [e|a]; [done|].
  rewrite (silent_run (f a) w (Hf a)). done.
Qed.

Lemma silent_map_of {A B} (xs : list A) (f : A → M B) :
  (∀ x, silent (f x)) → silent (map_of xs f).
Proof.
  intros Hf. induction xs as [|x xs IH]; simpl.
  - apply silent_ret.
  - apply silent_bind; [apply Hf|]. intros y.
    apply silent_bind; [apply IH|]. intros ys. apply silent_ret.
Qed.

Lemma silent_filter_of {A} (xs : list A) (pred : A → M bool) :
  (∀ x, silent (pred x)) → silent (filter_of xs pred).
Proof.
  intros Hp. induction xs as [|x xs IH]; simpl.
  - apply silent_ret.
  - apply silent_bind; [apply Hp|]. intros keep.
    apply silent_bind; [apply IH|]. intros kept. apply silent_ret.
Qed.

Lemma silent_has_permission channel member p :
  silent (DiscordBot.has_permission channel member p).
Proof.
  unfold DiscordBot.has_permission.
  destruct (Upstream.permissionsFor channel member);
    [apply silent_ret | apply silent_throw].
Qed.

Lemma silent_is_visible_text_channel member channel :
  silent (DiscordBot.is_visible_text_channel member channel).
Proof.
  unfold DiscordBot.is_visible_text_channel.
  destruct (_ && _); [apply silent_has_permission | apply silent_ret].
Qed.

Lemma silent_describe g member channel :
  silent (DiscordBot.describe g member channel).
Proof.
  unfold DiscordBot.describe.
  repeat (apply silent_bind; [apply silent_has_permission | intros ?]).
  apply silent_ret.
Qed.

Lemma silent_guild_channels userId entry :
  silent (DiscordBot.guild_channels userId entry).
Proof.
  unfold DiscordBot.guild_channels.
  destruct (Upstream.members_fetch entry userId) as [e|member]; [apply silent_ret|].
  apply silent_bind.
  - apply silent_filter_of. intros x. apply silent_is_visible_text_channel.
  - intros cs. apply silent_map_of. intros x. apply silent_describe.
Qed.

Lemma silent_collect_channels up userId :
  silent (DiscordBot.collect_channels up userId).
Proof.
  unfold DiscordBot.collect_channels. apply silent_bind.
  - apply silent_map_of. intros x. apply silent_guild_channels.
  - intros cs. apply silent_ret.
Qed.

(** [getUserChannels] never throws and never touches the world; when its
    loop throws it prints one line and gives the empty list. *)
Lemma getUserChannels_run up userId w :
  DiscordBot.getUserChannels up userId w =
    match result (DiscordBot.collect_channels up userId) w with
    | inr channels => (inr channels, w, [])
    | inl e => (inr [], w, [Wire.Console "Error getting user channels:" (Some e)])
    end.
Proof.
  unfold DiscordBot.getUserChannels. m_unfold.
  rewrite (silent_run _ w (silent_collect_channels up userId)).
  unfold result. by destruct (DiscordBot.collect_channels up userId w).1.1.
Qed.

(** [getChannelInfo] leaves the world alone; when it throws it has printed
    the error it rethrows. *)
Lemma getChannelInfo_run up channelId w :
  DiscordBot.getChannelInfo up channelId w =
    match result (DiscordBot.getChannelInfo up channelId) w with
    | inr info => (inr info, w, [])
    | inl e => (inl e, w, [Wire.Console "Error getting channel info:" (Some e)])
    end.
Proof.
  unfold result, DiscordBot.getChannelInfo. m_unfold.
  destruct (Upstream.channels_fetch up channelId) as [e|[channel|]]; try done.
  by destruct (negb _).
Qed.

End silent_bodies.

(* ===================================================================== *)
(** ** The connection handler                                             *)
(* ===================================================================== *)

Section connection_handler.
Import DiscordHandler.

Lemma world_eta (w : World) :
  {| discordBot := {| io := io (discordBot w);
                      channelSubscriptions := channelSubscriptions (discordBot w) |};
     session := session w |} = w.
Proof. by destruct w as [[] ?]. Qed.

Lemma has_true x (s : StringSet.t) : x ∈ s → StringSet.has x s = true.
Proof. intros. unfold StringSet.has. by apply bool_decide_eq_true. Qed.

Lemma has_false x (s : StringSet.t) : x ∉ s → StringSet.has x s = false.
Proof. intros. unfold StringSet.has. by apply bool_decide_eq_false. Qed.

(** C6. A join request for a channel already in the joined-set answers
    [{success: true, channelId, alreadyJoined: true}] and does nothing
    else: registry, joined-set and delivery groups are as before and
    nothing but the answer leaves the handler. *)
Theorem rejoin_short_circuits
    (up : Upstream.t) (channelId : string) (callback : bool) (w : World) :
  channelId ∈ joinedChannels (session w) →
  exec (handleJoinChannel up channelId callback) w = w
  ∧ emitted (handleJoinChannel up channelId callback) w
    = (if callback then [Wire.AckJoin (join_already channelId)] else [])
  ∧ result (handleJoinChannel up channelId callback) w = inr tt
  ∧ Wire.jc_success (join_already channelId) = true
  ∧ Wire.jc_alreadyJoined (join_already channelId) = Some true.
Proof.
  intros Hin. unfold handleJoinChannel, ack. m_unfold.
  rewrite (has_true _ _ Hin). by destruct callback.
Qed.

Lemma sample_rejoin :
  exec (handleJoinChannel Sample.discord "C1" true) Sample.joined = Sample.joined
  ∧ emitted (handleJoinChannel Sample.discord "C1" true) Sample.joined
    = [Wire.AckJoin (join_already "C1")].
Proof.
  pose proof (rejoin_short_circuits Sample.discord "C1" true Sample.joined) as H.
  destruct H as (Hw & Ht & _).
  - vm_compute. apply list_elem_of_here.
  - split; [exact Hw | exact Ht].
Defined.

(** What a failed join leaves behind it. *)
Lemma handleJoinChannel_failure up channelId callback w e :
  channelId ∉ joinedChannels (session w) →
  result (DiscordBot.getChannelInfo up channelId) w = inl e →
  handleJoinChannel up channelId callback w =
    (inr tt, w,
     [Wire.Console "Error getting channel info:" (Some e);
      Wire.LogError e "handleJoinChannel" (data_userId (data (session w)));
      Wire.Console "Error joining channel:" (Some e)]
     ++ (if callback then [Wire.AckJoin join_failed] else [])).
Proof.
  intros Hout He. unfold handleJoinChannel, ack, log_error. m_unfold.
  rewrite (has_false _ _ Hout), getChannelInfo_run, He.
  by destruct callback.
Qed.

(** What a successful join does. *)
Lemma handleJoinChannel_success up channelId callback w info :
  channelId ∉ joinedChannels (session w) →
  result (DiscordBot.getChannelInfo up channelId) w = inr info →
  handleJoinChannel up channelId callback w =
    (inr tt,
     {| discordBot :=
          {| io := io (discordBot w);
             channelSubscriptions :=
               Registry.subscribeToChannel channelId (data_discordId (data (session w)))
                 (channelSubscriptions (discordBot w)) |};
        session :=
          {| data := data (session w);
             rooms := rooms (session w) ∪ {[Wire.room_of channelId]};
             joinedChannels := joinedChannels (session w) ++ [channelId] |} |},
     [Wire.Console "User ... subscribed to channel ..." None;
      Wire.SocketEmit "channels" (Wire.Channel (joined_descriptor channelId info))]
     ++ (if callback then [Wire.AckJoin (join_ok channelId)] else [])
     ++ [Wire.Console "User ... joined channel ..." None]).
Proof.
  intros Hout Hinfo.
  unfold handleJoinChannel, ack, socket_join, DiscordBot.subscribeToChannel. m_unfold.
  rewrite (has_false _ _ Hout), getChannelInfo_run, Hinfo.
  unfold StringSet.add. simpl. rewrite (has_false _ _ Hout).
  by destruct callback.
Qed.

(** C4. A join request for a channel not in the joined-set is all or
    nothing. When the lookup of the channel fails (unknown channel, not a
    text channel, upstream rejection) the world is unchanged, no
    confirmation is emitted and the answer is
    [{success: false, error: 'Failed to join channel'}]; when it succeeds
    the four steps are all done. *)
Theorem join_all_or_nothing
    (up : Upstream.t) (channelId : string) (callback : bool) (w : World) :
  channelId ∉ joinedChannels (session w) →
  let w' := exec (handleJoinChannel up channelId callback) w in
  let t := emitted (handleJoinChannel up channelId callback) w in
  (∀ e, result (DiscordBot.getChannelInfo up channelId) w = inl e →
        w' = w ∧ ¬ confirmation_sent channelId t
        ∧ filter Wire.is_ack t = (if callback then [Wire.AckJoin join_failed] else []))
  ∧ (∀ info, result (DiscordBot.getChannelInfo up channelId) w = inr info →
        group_attached channelId w' ∧ locally_joined channelId w'
        ∧ registry_subscribed channelId w' ∧ confirmation_sent channelId t
        ∧ filter Wire.is_ack t = (if callback then [Wire.AckJoin (join_ok channelId)] else []))
  ∧ ((group_attached channelId w' ∧ locally_joined channelId w'
      ∧ registry_subscribed channelId w' ∧ confirmation_sent channelId t)
     ∨ (w' = w ∧ ¬ confirmation_sent channelId t))
  ∧ result (handleJoinChannel up channelId callback) w = inr tt.
Proof.
  intros Hout w' t.
  assert (∀ e, result (DiscordBot.getChannelInfo up channelId) w = inl e →
            w' = w ∧ ¬ confirmation_sent channelId t
            ∧ filter Wire.is_ack t = (if callback then [Wire.AckJoin join_failed] else [])
            ∧ result (handleJoinChannel up channelId callback) w = inr tt) as Hfail.
  { intros e He. subst w' t. unfold exec, emitted, result.
    rewrite (handleJoinChannel_failure up channelId callback w e Hout He). simpl.
    split; [done|]. split; [|by destruct callback].
    intros (d & Hd & _). destruct callback; set_solver. }
  assert (∀ info, result (DiscordBot.getChannelInfo up channelId) w = inr info →
            group_attached channelId w' ∧ locally_joined channelId w'
            ∧ registry_subscribed channelId w' ∧ confirmation_sent channelId t
            ∧ filter Wire.is_ack t = (if callback then [Wire.AckJoin (join_ok channelId)] else [])
            ∧ result (handleJoinChannel up channelId callback) w = inr tt) as Hok.
  { intros info Hinfo. subst w' t. unfold exec, emitted, result.
    rewrite (handleJoinChannel_success up channelId callback w info Hout Hinfo). simpl.
    unfold group_attached, locally_joined, registry_subscribed, confirmation_sent. simpl.
    split; [set_solver|]. split; [set_solver|]. split.
    { unfold Registry.listSubscribers. rewrite subscribe_lookup. simpl. set_solver. }
    split; [|by destruct callback].
    exists (joined_descriptor channelId info). split; [set_solver | done]. }
  split; [intros e He; destruct (Hfail e He) as (?&?&?&?); done|].
  split; [intros info Hinfo; destruct (Hok info Hinfo) as (?&?&?&?&?&?); done|].
  destruct (result (DiscordBot.getChannelInfo up channelId) w) as [e|info] eqn:E.
  - destruct (Hfail e eq_refl) as (?&?&?&?). split; [right|]; done.
  - destruct (Hok info eq_refl) as (?&?&?&?&?&?). split; [left|]; done.
Qed.

Lemma sample_join_unknown_and_known :
  exec (handleJoinChannel Sample.discord "C9" true) Sample.fresh = Sample.fresh
  ∧ registry_subscribed "C1" (exec (handleJoinChannel Sample.discord "C1" true) Sample.fresh).
Proof.
  split.
  - pose proof (join_all_or_nothing Sample.discord "C9" true Sample.fresh) as H.
    destruct H as (Hfail & _).
    + vm_compute. apply not_elem_of_nil.
    + destruct (Hfail (Js.Throw Js.Error "Unknown Channel")) as (Hw & _);
        [reflexivity | exact Hw].
  - pose proof (join_all_or_nothing Sample.discord "C1" true Sample.fresh) as H.
    destruct H as (_ & Hok & _).
    + vm_compute. apply not_elem_of_nil.
    + destruct (Hok (Wire.Build_ChannelInfo "C1" "general" 0 "G1" "Guild One"))
        as (_ & _ & Hsub & _); [reflexivity | exact Hsub].
Defined.

(** One turn of the loop of [handleDisconnect]. *)
Lemma leave_on_disconnect_run channelId w :
  leave_on_disconnect channelId w =
    (inr tt,
     {| discordBot :=
          {| io := io (discordBot w);
             channelSubscriptions :=
               Registry.unsubscribeFromChannel channelId (data_discordId (data (session w)))
                 (channelSubscriptions (discordBot w)) |};
        session := session w |},
     match channelSubscriptions (discordBot w) !! channelId with
     | Some _ => [Wire.Console "User ... unsubscribed from channel ..." None]
     | None => []
     end ++ [user_left w channelId]).
Proof.
  unfold leave_on_disconnect, DiscordBot.unsubscribeFromChannel, Registry.get. m_unfold.
  by destruct (channelSubscriptions (discordBot w) !! channelId).
Qed.

(** The whole loop: the registry loses the principal channel by channel,
    the session is untouched, and every channel walked gets its
    notification. *)
Lemma disconnect_loop (l : list string) (w : World) :
  ∃ t,
    for_of l leave_on_disconnect w =
      (inr tt,
       {| discordBot :=
            {| io := io (discordBot w);
               channelSubscriptions :=
                 foldl (λ m ch, Registry.unsubscribeFromChannel ch
                                  (data_discordId (data (session w))) m)
                       (channelSubscriptions (discordBot w)) l |};
          session := session w |},
       t)
    ∧ ∀ ch, ch ∈ l → user_left w ch ∈ t.
Proof.
  revert w. induction l as [|x l IH]; intros w.
  - exists []. simpl. rewrite world_eta. split; [done|]. intros ch Hch. by apply not_elem_of_nil in Hch.
  - simpl. m_unfold. rewrite leave_on_disconnect_run.
    match goal with |- context [for_of l leave_on_disconnect ?w1] =>
      destruct (IH w1) as (t & -> & Ht) end.
    simpl. eexists. split; [reflexivity|].
    intros ch Hch. apply elem_of_cons in Hch as [->|Hch].
    + set_solver.
    + apply elem_of_app. right. apply (Ht ch Hch).
Qed.

Lemma unsubscribe_removes ch u (m : gmap string (gset string)) :
  u ∉ Registry.listSubscribers ch (Registry.unsubscribeFromChannel ch u m).
Proof. rewrite listSubscribers_unsubscribe. set_solver. Qed.

Lemma unsubscribe_keeps_absent ch ch' u (m : gmap string (gset string)) :
  u ∉ Registry.listSubscribers ch m →
  u ∉ Registry.listSubscribers ch (Registry.unsubscribeFromChannel ch' u m).
Proof.
  intros Hu. destruct (decide (ch' = ch)) as [->|Hne].
  - apply unsubscribe_removes.
  - by rewrite listSubscribers_unsubscribe_ne.
Qed.

Lemma unsubscribe_all_keeps_absent ch u (l : list string) (m : gmap string (gset string)) :
  u ∉ Registry.listSubscribers ch m →
  u ∉ Registry.listSubscribers ch
        (foldl (λ m ch, Registry.unsubscribeFromChannel ch u m) m l).
Proof.
  revert m. induction l as [|x l IH]; intros m Hu; [done|].
  simpl. apply IH. by apply unsubscribe_keeps_absent.
Qed.

Lemma unsubscribe_all_removes ch u (l : list string) (m : gmap string (gset string)) :
  ch ∈ l →
  u ∉ Registry.listSubscribers ch
        (foldl (λ m ch, Registry.unsubscribeFromChannel ch u m) m l).
Proof.
  revert m. induction l as [|x l IH]; intros m Hin.
  - by apply not_elem_of_nil in Hin.
  - simpl. apply elem_of_cons in Hin as [->|Hin].
    + apply unsubscribe_all_keeps_absent, unsubscribe_removes.
    + by apply IH.
Qed.

(** C3. When a connection disconnects, for every channel in its joined-set
    the principal is no longer among the channel's subscribers, a
    [user_left] notification carrying the channel goes to the channel's
    delivery group, and the joined-set ends empty. *)
Theorem disconnect_unwinds_joined_channels (w : World) (channelId : string) :
  channelId ∈ joinedChannels (session w) →
  (data_discordId (data (session w))
     ∉ Registry.listSubscribers channelId
         (channelSubscriptions (discordBot (exec handleDisconnect w))))
  ∧ Wire.SocketTo (Wire.room_of channelId) "user_left"
      (Wire.UserLeft channelId (data_userId (data (session w)))
                     (data_username (data (session w))))
      ∈ emitted handleDisconnect w
  ∧ joinedChannels (session (exec handleDisconnect w)) = []
  ∧ result handleDisconnect w = inr tt.
Proof.
  intros Hin. unfold exec, emitted, result, handleDisconnect. m_unfold.
  destruct (disconnect_loop (joinedChannels (session w)) w) as (t & -> & Ht).
  simpl. split; [by apply unsubscribe_all_removes|].
  split; [|done]. apply elem_of_cons. right.
  rewrite app_nil_r. apply (Ht channelId Hin).
Qed.

Lemma sample_join_then_disconnect :
  ("U1" ∉ Registry.listSubscribers "C1"
            (channelSubscriptions (discordBot (exec handleDisconnect Sample.joined))))
  ∧ joinedChannels (session (exec handleDisconnect Sample.joined)) = [].
Proof.
  pose proof (disconnect_unwinds_joined_channels Sample.joined "C1") as H.
  destruct H as (Hreg & _ & Hset & _).
  - vm_compute. apply list_elem_of_here.
  - split; [exact Hreg | exact Hset].
Defined.





End connection_handler.

(* ===================================================================== *)
(** ** The registry as the bot exposes it, and the authenticator          *)
(* ===================================================================== *)

Section bot_and_auth.

(** C8. In a registry reached by subscribe and unsubscribe calls,
    unsubscribing a subscriber who is not in the channel's set (the channel
    may have no entry) returns normally and leaves the registry, and the
    rest of the world, exactly as it was. *)
Theorem unsubscribe_non_member_noop (w : World) (channelId userId : string) :
  Registry.reachable (channelSubscriptions (discordBot w)) →
  userId ∉ Registry.listSubscribers channelId (channelSubscriptions (discordBot w)) →
  result (DiscordBot.unsubscribeFromChannel channelId userId) w = inr tt
  ∧ exec (DiscordBot.unsubscribeFromChannel channelId userId) w = w
  ∧ Registry.unsubscribeFromChannel channelId userId (channelSubscriptions (discordBot w))
    = channelSubscriptions (discordBot w).
Proof.
  intros Hr Hu.
  pose proof (unsubscribe_absent channelId userId _
                (reachable_no_empty_entry _ Hr) Hu) as Heq.
  unfold result, exec, DiscordBot.unsubscribeFromChannel, Registry.get. m_unfold.
  rewrite Heq, world_eta.
  by destruct (channelSubscriptions (discordBot w) !! channelId).
Qed.

Lemma sample_unsubscribe_stranger :
  exec (DiscordBot.unsubscribeFromChannel "C1" "U2") Sample.joined = Sample.joined
  ∧ exec (DiscordBot.unsubscribeFromChannel "C7" "U1") Sample.joined = Sample.joined.
Proof.
  split.
  - pose proof (unsubscribe_non_member_noop Sample.joined "C1" "U2") as H.
    destruct H as (_ & Hw & _).
    + exists [Registry.Subscribe "C1" "U1"]. vm_compute. reflexivity.
    + vm_compute. discriminate.
    + exact Hw.
  - pose proof (unsubscribe_non_member_noop Sample.joined "C7" "U1") as H.
    destruct H as (_ & Hw & _).
    + exists [Registry.Subscribe "C1" "U1"]. vm_compute. reflexivity.
    + vm_compute. discriminate.
    + exact Hw.
Defined.

Lemma TokenExpiredError_is_JsonWebTokenError e :
  Js.instanceOf e Js.TokenExpiredError = true →
  Js.instanceOf e Js.JsonWebTokenError = true.
Proof. destruct e as [[] msg]; by vm_compute. Qed.

Lemma authenticate_catch_never_expired error :
  Auth.next_error (Auth.authenticate_catch error) ≠ Some "Authentication token expired".
Proof.
  unfold Auth.authenticate_catch.
  destruct (Js.instanceOf error Js.JsonWebTokenError) eqn:Hj; [done|].
  destruct (Js.instanceOf error Js.TokenExpiredError) eqn:Ht; [|done].
  apply TokenExpiredError_is_JsonWebTokenError in Ht. congruence.
Qed.

(** C10. When [jwt.verify] throws a [TokenExpiredError], the connection
    is refused with ['Invalid authentication token']; and whatever the
    verifier and the token, the middleware never answers
    ['Authentication token expired']. *)
Theorem expired_token_reported_as_invalid
    (verify : string → Js.exn + Auth.AuthPayload) (token : string) (error : Js.exn) :
  Js.truthy (Some token) = true →
  verify token = inl error →
  Js.instanceOf error Js.TokenExpiredError = true →
  Auth.authenticateSocket verify (Some token) = Auth.reject "Invalid authentication token"
  ∧ ∀ verify' token',
      Auth.next_error (Auth.authenticateSocket verify' token')
        ≠ Some "Authentication token expired".
Proof.
  intros Htok Hv He. split.
  - unfold Auth.authenticateSocket, Auth.authenticate_try, Auth.authenticate_catch.
    rewrite Htok, Hv. simpl.
    by rewrite (TokenExpiredError_is_JsonWebTokenError _ He).
  - intros verify' token'. unfold Auth.authenticateSocket, Auth.authenticate_try.
    destruct token' as [tok|]; [|done].
    destruct (negb _); [done|].
    destruct (verify' tok) as [e|decoded]; [apply authenticate_catch_never_expired|].
    by destruct (_ || _).
Qed.

Lemma sample_expired_token :
  Auth.authenticateSocket Sample.verify_expired (Some "header.payload.signature")
    = Auth.reject "Invalid authentication token".
Proof.
  apply (expired_token_reported_as_invalid Sample.verify_expired
           "header.payload.signature" (Js.Throw Js.TokenExpiredError "jwt expired"));
    reflexivity.
Defined.

End bot_and_auth.

(* ===================================================================== *)
(** ** The scenarios of the deployment above                              *)
(* ===================================================================== *)

Section scenarios.

(** [U1] has joined [C1]; a human writes ["hi"] there: one [message]
    dispatch to the delivery group of [C1], not marked as edited. *)
Example message_relayed_to_joined_channel :
  emitted (DiscordBot.on (DiscordBot.messageCreate (Sample.hi false))) Sample.joined
  = [Wire.Console "Formatted message to emit:" None;
     Wire.NamespaceTo "channel:C1" "message" (Wire.Message (Sample.hi_wire false));
     Wire.Console "Message from ... in #..." None].
Proof. reflexivity. Qed.

(** One unresolvable channel empties the whole answer, the channel that
    was already gathered included; the callback is still called, with
    [success: true]. *)
Example unresolvable_channel_empties_answer :
  filter Wire.is_ack
    (emitted (DiscordHandler.handleGetChannels Sample.discord_broken true) Sample.fresh)
  = [Wire.AckGetChannels
       {| Wire.gc_success := true; Wire.gc_error := None; Wire.gc_channels := [] |}].
Proof. reflexivity. Qed.

(** Leaving a channel that was never joined answers with success and
    changes nothing. *)
Example leave_not_joined :
  exec (DiscordHandler.handleLeaveChannel (Some "C7") true) Sample.joined = Sample.joined
  ∧ filter Wire.is_ack
      (emitted (DiscordHandler.handleLeaveChannel (Some "C7") true) Sample.joined)
    = [Wire.AckLeave {| Wire.lc_success := true; Wire.lc_channelId := Some "C7";
                        Wire.lc_error := None |}].
Proof. split; reflexivity. Qed.

(** Join, then leave: the registry is empty again. *)
Example join_then_leave_cleans_registry :
  channelSubscriptions
    (discordBot (exec (DiscordHandler.handleLeaveChannel (Some "C1") true) Sample.joined))
  = Registry.empty.
Proof. reflexivity. Qed.

(** A token whose verification fails for another reason than its date is
    refused with the same message as an expired one. *)
Example malformed_token_same_message :
  Auth.authenticateSocket
    (λ _, inl (Js.Throw Js.JsonWebTokenError "jwt malformed")) (Some "garbage")
  = Auth.authenticateSocket Sample.verify_expired (Some "garbage").
Proof. reflexivity. Qed.

End scenarios.

(* ===================================================================== *)
(** ** More on the registry                                               *)
(* ===================================================================== *)

Section registry_more.
Import Registry.
Implicit Types (m : gmap string (gset string)) (ch u : string).

Lemma listSubscribers_subscribe ch u m :
  listSubscribers ch (subscribeToChannel ch u m) = listSubscribers ch m ∪ {[u]}.
Proof. unfold listSubscribers at 1. by rewrite subscribe_lookup. Qed.

Lemma listSubscribers_subscribe_ne ch ch' u m :
  ch ≠ ch' → listSubscribers ch' (subscribeToChannel ch u m) = listSubscribers ch' m.
Proof. intros. unfold listSubscribers. by rewrite subscribe_lookup_ne. Qed.

Lemma listSubscribers_after_step m (c : call) ch :
  listSubscribers ch (step m c) =
    match c with
    | Subscribe ch' u =>
        if decide (ch' = ch) then listSubscribers ch m ∪ {[u]} else listSubscribers ch m
    | Unsubscribe ch' u =>
        if decide (ch' = ch) then listSubscribers ch m ∖ {[u]} else listSubscribers ch m
    end.
Proof.
  destruct c as [ch' u|ch' u]; simpl; case_decide as Hc.
  - subst. apply listSubscribers_subscribe.
  - by apply listSubscribers_subscribe_ne.
  - subst. apply listSubscribers_unsubscribe.
  - by apply listSubscribers_unsubscribe_ne.
Qed.

(** What one call does to who is listening: the named subscriber joins
    or leaves the named channel's set, every other channel keeps its set. *)
Theorem listSubscribers_step (m : gmap string (gset string)) (c : call) (ch : string) :
  listSubscribers ch (step m c) =
    match c with
    | Subscribe ch' u =>
        if decide (ch' = ch) then listSubscribers ch m ∪ {[u]} else listSubscribers ch m
    | Unsubscribe ch' u =>
        if decide (ch' = ch) then listSubscribers ch m ∖ {[u]} else listSubscribers ch m
    end.
Proof. apply listSubscribers_after_step. Qed.

(** A call changes the membership of the pair it names and of no other. *)
Theorem step_frame (m : gmap string (gset string)) (c : call) (ch u : string) :
  RegistryLog.names c ≠ (ch, u) →
  (u ∈ listSubscribers ch (step m c) ↔ u ∈ listSubscribers ch m).
Proof.
  intros Hne. rewrite listSubscribers_after_step.
  destruct c as [ch' u'|ch' u']; simpl in Hne; case_decide; subst; try done.
  - assert (u ≠ u') by congruence. set_solver.
  - assert (u ≠ u') by congruence. set_solver.
Qed.

Lemma sample_other_subscriber_kept :
  "U2" ∈ listSubscribers "C1" (step Sample2.busy (Unsubscribe "C1" "U1")).
Proof.
  apply (step_frame Sample2.busy (Unsubscribe "C1" "U1") "C1" "U2").
  - vm_compute. discriminate.
  - vm_compute. reflexivity.
Defined.

(** After any sequence of calls on the empty registry, a subscriber is
    listening to a channel exactly when the last call that names the pair
    is a subscribe. *)
Theorem registry_tracks_last_call (cs : list call) (ch u : string) :
  u ∈ listSubscribers ch (run cs empty) ↔ RegistryLog.last_subscribes ch u cs = true.
Proof.
  induction cs as [|c cs IH] using rev_ind.
  - unfold listSubscribers, run, empty. simpl. rewrite lookup_empty. simpl.
    split; [set_solver | done].
  - rewrite run_snoc. unfold RegistryLog.last_subscribes in *.
    rewrite foldl_app. simpl. rewrite listSubscribers_after_step.
    destruct c as [ch' u'|ch' u']; repeat case_decide; subst;
      try (by rewrite <- IH); try set_solver.
Qed.

Lemma unsubscribe_twice ch u m :
  unsubscribeFromChannel ch u (unsubscribeFromChannel ch u m) = unsubscribeFromChannel ch u m.
Proof.
  apply map_eq. intros k. destruct (decide (ch = k)) as [<-|Hne].
  - rewrite (unsubscribe_lookup ch u (unsubscribeFromChannel ch u m)).
    rewrite unsubscribe_lookup.
    destruct (m !! ch) as [s|]; [|done].
    case_decide as He; [done|].
    assert (s ∖ {[u]} ∖ {[u]} = s ∖ {[u]}) as -> by set_solver.
    by rewrite decide_False.
  - by rewrite !unsubscribe_lookup_ne.
Qed.

(** Unsubscribing a second time changes nothing, in any state of the map. *)
Theorem unsubscribe_idempotent (m : gmap string (gset string)) (ch u : string) :
  unsubscribeFromChannel ch u (unsubscribeFromChannel ch u m) = unsubscribeFromChannel ch u m
  ∧ u ∉ listSubscribers ch (unsubscribeFromChannel ch u m).
Proof.
  split; [apply unsubscribe_twice|].
  rewrite listSubscribers_unsubscribe. set_solver.
Qed.

(** Subscribe and unsubscribe undo each other: a newcomer who subscribes
    and then unsubscribes leaves the registry as it was (the entry created
    for a first subscriber is deleted again), and a subscriber who
    unsubscribes and subscribes again is back in the same registry. *)
Theorem subscribe_unsubscribe_round_trip
    (m : gmap string (gset string)) (ch u : string) :
  reachable m →
  (u ∉ listSubscribers ch m →
     unsubscribeFromChannel ch u (subscribeToChannel ch u m) = m)
  ∧ (u ∈ listSubscribers ch m →
     subscribeToChannel ch u (unsubscribeFromChannel ch u m) = m).
Proof.
  intros Hr. pose proof (reachable_no_empty_entry m Hr) as Hm. split; intros Hu.
  - apply map_eq. intros k. destruct (decide (ch = k)) as [<-|Hne].
    + rewrite unsubscribe_lookup, subscribe_lookup.
      assert ((listSubscribers ch m ∪ {[u]}) ∖ {[u]} = listSubscribers ch m) as ->
        by set_solver.
      unfold listSubscribers in *. destruct (m !! ch) as [s|] eqn:E; simpl in *.
      * rewrite decide_False; [done|]. by apply (Hm ch).
      * by rewrite decide_True.
    + by rewrite unsubscribe_lookup_ne, subscribe_lookup_ne.
  - apply map_eq. intros k. destruct (decide (ch = k)) as [<-|Hne].
    + rewrite subscribe_lookup, listSubscribers_unsubscribe.
      unfold listSubscribers in *. destruct (m !! ch) as [s|] eqn:E; simpl in *.
      * f_equal. apply set_eq. intros x. destruct (decide (x = u)); set_solver.
      * set_solver.
    + by rewrite subscribe_lookup_ne, unsubscribe_lookup_ne.
Qed.

Lemma sample_registry_round_trip :
  unsubscribeFromChannel "C3" "U9" (subscribeToChannel "C3" "U9" Sample2.busy) = Sample2.busy
  ∧ subscribeToChannel "C1" "U1" (unsubscribeFromChannel "C1" "U1" Sample2.busy) = Sample2.busy.
Proof.
  pose proof (subscribe_unsubscribe_round_trip Sample2.busy "C3" "U9") as H3.
  pose proof (subscribe_unsubscribe_round_trip Sample2.busy "C1" "U1") as H1.
  split.
  - apply H3.
    + eexists. reflexivity.
    + vm_compute. discriminate.
  - apply H1.
    + eexists. reflexivity.
    + vm_compute. reflexivity.
Defined.

End registry_more.

(* ===================================================================== *)
(** ** [getSubscriptionStats]                                              *)
(* ===================================================================== *)

Section stats.
Import Registry.
Implicit Types (m : gmap string (gset string)) (ch u : string).

Lemma subscriber_total_perm (l1 l2 : list (string * nat)) :
  l1 ≡ₚ l2 →
  foldr (λ d acc, d.2 + acc) 0 l1 = foldr (λ d acc, d.2 + acc) 0 l2.
Proof. induction 1; simpl; lia. Qed.

Lemma totalSubscribers_insert ch (s : gset string) m :
  totalSubscribers (getSubscriptionStats (<[ch := s]> m)) + size (listSubscribers ch m)
  = totalSubscribers (getSubscriptionStats m) + size s.
Proof.
  unfold getSubscriptionStats. cbn [totalSubscribers].
  destruct (m !! ch) as [s0|] eqn:E.
  - assert (listSubscribers ch m = s0) as -> by (unfold listSubscribers; by rewrite E).
    rewrite <- (insert_delete_eq m).
    rewrite (subscriber_total_perm _ _
               (fmap_Permutation _ _ _
                  (map_to_list_insert (delete ch m) ch s (lookup_delete_eq m ch)))).
    rewrite <- (subscriber_total_perm _ _
                  (fmap_Permutation _ _ _ (map_to_list_delete m ch s0 E))).
    rewrite !fmap_cons. cbn [foldr snd]. lia.
  - assert (listSubscribers ch m = ∅) as -> by (unfold listSubscribers; by rewrite E).
    rewrite size_empty.
    rewrite (subscriber_total_perm _ _
               (fmap_Permutation _ _ _ (map_to_list_insert m ch s E))).
    rewrite !fmap_cons. cbn [foldr snd]. lia.
Qed.

Lemma totalSubscribers_delete ch m :
  totalSubscribers (getSubscriptionStats (delete ch m)) + size (listSubscribers ch m)
  = totalSubscribers (getSubscriptionStats m).
Proof.
  unfold getSubscriptionStats. cbn [totalSubscribers].
  destruct (m !! ch) as [s0|] eqn:E.
  - assert (listSubscribers ch m = s0) as -> by (unfold listSubscribers; by rewrite E).
    rewrite <- (subscriber_total_perm _ _
                  (fmap_Permutation _ _ _ (map_to_list_delete m ch s0 E))).
    rewrite !fmap_cons. cbn [foldr snd]. lia.
  - assert (listSubscribers ch m = ∅) as -> by (unfold listSubscribers; by rewrite E).
    rewrite delete_id by done. rewrite size_empty. lia.
Qed.

(** [totalSubscribers] counts subscriptions, not people: a subscribe of
    somebody who is not yet in the channel's set adds one to it, wherever
    else they are subscribed, a repeated subscribe adds nothing, and an
    unsubscribe takes one away exactly when the subscriber was in the set. *)
Theorem totalSubscribers_counts_subscriptions
    (m : gmap string (gset string)) (ch u : string) :
  totalSubscribers (getSubscriptionStats (subscribeToChannel ch u m))
  = totalSubscribers (getSubscriptionStats m)
    + (if decide (u ∈ listSubscribers ch m) then 0 else 1)
  ∧ totalSubscribers (getSubscriptionStats (unsubscribeFromChannel ch u m))
    + (if decide (u ∈ listSubscribers ch m) then 1 else 0)
    = totalSubscribers (getSubscriptionStats m).
Proof.
  split.
  - rewrite subscribe_as_insert.
    pose proof (totalSubscribers_insert ch (listSubscribers ch m ∪ {[u]}) m) as H.
    case_decide as Hu.
    + assert (listSubscribers ch m ∪ {[u]} = listSubscribers ch m) as Heq by set_solver.
      rewrite Heq in *. lia.
    + rewrite size_union in H by set_solver. rewrite size_singleton in H. lia.
  - assert (size (listSubscribers ch m ∖ {[u]})
            + (if decide (u ∈ listSubscribers ch m) then 1 else 0)
            = size (listSubscribers ch m)) as Hsz.
    { case_decide as Hu.
      - rewrite size_difference by set_solver. rewrite size_singleton.
        assert (size (listSubscribers ch m) ≠ 0); [|lia].
        intros H0. apply size_empty_inv in H0. set_solver.
      - assert (listSubscribers ch m ∖ {[u]} = listSubscribers ch m) as -> by set_solver.
        lia. }
    revert Hsz. generalize (if decide (u ∈ listSubscribers ch m) then 1 else 0).
    intros gone Hsz. unfold unsubscribeFromChannel.
    destruct (m !! ch) as [s|] eqn:E.
    + assert (listSubscribers ch m = s) as Hs by (unfold listSubscribers; by rewrite E).
      rewrite Hs in Hsz. cbv zeta.
      destruct (decide (size (s ∖ {[u]}) = 0)) as [H0|H0].
      * rewrite delete_insert_eq.
        pose proof (totalSubscribers_delete ch m) as Hd. rewrite Hs in Hd. lia.
      * pose proof (totalSubscribers_insert ch (s ∖ {[u]}) m) as Hi.
        rewrite Hs in Hi. lia.
    + assert (listSubscribers ch m = ∅) as Hs by (unfold listSubscribers; by rewrite E).
      rewrite Hs in Hsz.
      assert ((∅ : gset string) ∖ {[u]} = ∅) as He by set_solver.
      rewrite He, size_empty in Hsz. lia.
Qed.

Lemma at_least_one_each (l : list (string * nat)) :
  Forall (λ d : string * nat, (1 ≤ d.2)%nat) l →
  (length l ≤ foldr (λ d acc, d.2 + acc) 0 l)%nat.
Proof. induction 1; simpl; lia. Qed.

(** In a registry reached by subscribe and unsubscribe calls the
    statistics list one line per channel, each with at least one
    subscriber, so that there are at least as many subscriptions as
    channels; [totalChannels] is the number of lines. *)
Theorem stats_of_reachable_registry (m : gmap string (gset string)) :
  reachable m →
  totalChannels (getSubscriptionStats m) = length (channelDetails (getSubscriptionStats m))
  ∧ Forall (λ d : string * nat, (1 ≤ d.2)%nat ∧ d.2 = size (listSubscribers d.1 m))
           (channelDetails (getSubscriptionStats m))
  ∧ (totalChannels (getSubscriptionStats m)
     ≤ totalSubscribers (getSubscriptionStats m))%nat.
Proof.
  intros Hr. pose proof (reachable_no_empty_entry m Hr) as Hm.
  unfold getSubscriptionStats. simpl.
  assert (Forall (λ d : string * nat, (1 ≤ d.2)%nat ∧ d.2 = size (listSubscribers d.1 m))
            ((λ e : string * gset string, (e.1, size e.2)) <$> map_to_list m)) as Hall.
  { apply Forall_fmap, Forall_forall. intros [k s] Hin. simpl.
    apply elem_of_map_to_list in Hin. unfold listSubscribers. rewrite Hin. simpl.
    split; [|done].
    assert (size s ≠ 0); [|lia].
    intros H0. apply size_empty_inv in H0. apply (Hm k s Hin). by apply leibniz_equiv. }
  split; [by rewrite length_fmap, length_map_to_list|].
  split; [exact Hall|].
  rewrite <- length_map_to_list, <- (length_fmap (λ e : string * gset string, (e.1, size e.2))).
  apply at_least_one_each. eapply Forall_impl; [exact Hall|]. by intros d [? _].
Qed.

Lemma sample_busy_stats :
  (totalChannels (getSubscriptionStats Sample2.busy)
   ≤ totalSubscribers (getSubscriptionStats Sample2.busy))%nat.
Proof.
  pose proof (stats_of_reachable_registry Sample2.busy) as H.
  destruct H as (_ & _ & H).
  - eexists. reflexivity.
  - exact H.
Defined.

End stats.

(* ===================================================================== *)
(** ** More on the relay                                                  *)
(* ===================================================================== *)

Section relay_more.
Import DiscordBot.

(** Opens the three listeners and splits on everything they test. *)
Ltac relay_cases :=
  unfold on, handleNewMessage, handleMessageUpdate, handleMessageDelete,
         formatMessage, io_emit, Registry.get, Js.toISOString;
  m_unfold;
  repeat match goal with
         | |- context [match ?x with _ => _ end] =>
             is_var x; destruct x
         | |- context [if ?b then _ else _] => destruct b eqn:?
         | |- context [match ?o with Some _ => _ | None => _ end] => destruct o eqn:?
         end.


(** The listeners of the gateway events never throw and never write:
    whatever the event, the registry and the connection are as before. A
    failure inside a listener ends in its [catch]. *)
Theorem relay_never_throws_nor_writes (e : event) (w : World) :
  result (on e) w = inr tt ∧ exec (on e) w = w.
Proof.
  destruct e as [message|partial message|message]; relay_cases; done.
Qed.

(** A listener makes at most one emit call, and it goes to the delivery
    group of the event's own channel, under the event name of its kind. *)
Theorem relay_emits_to_own_channel_once (e : event) (w : World) :
  filter Wire.is_transport_emit (emitted (on e) w) = []
  ∨ ∃ channelId p,
      event_channel e = Some channelId
      ∧ filter Wire.is_transport_emit (emitted (on e) w)
        = [Wire.NamespaceTo (Wire.room_of channelId)
             match e with
             | messageCreate _ => "message"
             | messageUpdate _ _ => "message_update"
             | messageDelete _ => "message_delete"
             end p].
Proof.
  destruct e as [message|partial message|message]; simpl event_channel;
    relay_cases; simpl; eauto.
Qed.

(** Before [initialize] has stored the server ([io] is [null]) no
    listener emits anything. *)
Theorem relay_silent_without_server (e : event) (w : World) :
  io (discordBot w) = false →
  filter Wire.is_transport_emit (emitted (on e) w) = [].
Proof.
  intros Hio. destruct e as [message|partial message|message]; relay_cases;
    simpl; try done; congruence.
Qed.

Lemma sample_silent_without_server :
  filter Wire.is_transport_emit
    (emitted (on (messageDelete Sample.hi_deleted))
       {| discordBot := {| io := false; channelSubscriptions := Sample2.busy |};
          session := session Sample.joined |}) = [].
Proof. apply relay_silent_without_server. reflexivity. Defined.

(** What [formatMessage] keeps and what it fills in: identifier, content
    and channel are the message's; attachments, embeds and reactions keep
    their number and order; an attachment without a name is called
    ['unknown'], so no file name is empty; an author without a display name
    shows under the user name; the record is not marked as edited. *)
Theorem formatMessage_shape
    (message : Upstream.Message) (w : World) (fm : Wire.DiscordMessage) :
  result (formatMessage message) w = inr fm →
  Wire.id fm = Upstream.message_id message
  ∧ Wire.content fm = Upstream.content message
  ∧ Wire.channelId fm = Upstream.message_channel_id message
  ∧ Wire.attachment_id <$> Wire.attachments fm
    = Upstream.att_id <$> Upstream.attachments message
  ∧ Forall (λ a, Wire.attachment_filename a ≠ "") (Wire.attachments fm)
  ∧ length (Wire.embeds fm) = length (Upstream.embeds message)
  ∧ length (Wire.reactions fm) = length (Upstream.reactions message)
  ∧ (Upstream.displayName (Upstream.author message) = None →
     Wire.author_displayName (Wire.author fm)
     = Upstream.username (Upstream.author message))
  ∧ Wire.edited fm = false
  ∧ Wire.editedTimestamp fm = "".
Proof.
  unfold result, formatMessage, Js.toISOString. m_unfold.
  destruct (Upstream.createdAt message) as [iso|]; [|discriminate].
  simpl. intros [= <-]. simpl.
  split; [done|]. split; [done|]. split; [done|].
  split. { rewrite <- list_fmap_compose. done. }
  split.
  { apply Forall_fmap, Forall_forall. intros att _. simpl.
    unfold Js.or_string, Js.truthy.
    destruct (Upstream.att_name att) as [n|]; [|done].
    case_bool_decide; [done|discriminate]. }
  split; [by rewrite length_fmap|]. split; [by rewrite length_fmap|].
  split; [|done]. by intros ->.
Qed.

Lemma sample_hi_formatted :
  Wire.content (Sample.hi_wire false) = "hi" ∧ Wire.edited (Sample.hi_wire false) = false.
Proof.
  pose proof (formatMessage_shape (Sample.hi false) Sample.fresh (Sample.hi_wire false)) as H.
  destruct H as (_ & Hc & _ & _ & _ & _ & _ & _ & He & _).
  - reflexivity.
  - split; [exact Hc | exact He].
Defined.

(** A message of a human author in a channel somebody subscribed to,
    once the server is attached, is relayed exactly once: one [message]
    event to the channel's delivery group, carrying the formatted message,
    which is not marked as edited. *)
Theorem created_message_relayed_once
    (message : Upstream.Message) (w : World) (iso : string) :
  Upstream.bot (Upstream.author message) = false →
  Registry.listSubscribers (Upstream.message_channel_id message)
    (channelSubscriptions (discordBot w)) ≠ ∅ →
  io (discordBot w) = true →
  Upstream.createdAt message = Some iso →
  ∃ fm,
    result (formatMessage message) w = inr fm
    ∧ Wire.timestamp fm = iso
    ∧ Wire.edited fm = false
    ∧ filter Wire.is_transport_emit (emitted (on (messageCreate message)) w)
      = [Wire.NamespaceTo (Wire.room_of (Upstream.message_channel_id message))
           "message" (Wire.Message fm)].
Proof.
  intros Hb Hs Hio Hc.
  unfold on, handleNewMessage, formatMessage, io_emit, Registry.get, Js.toISOString,
         Registry.listSubscribers in *.
  rewrite Hb, Hc. m_unfold.
  destruct (channelSubscriptions (discordBot w) !! _) as [s|]; [|done].
  simpl in Hs. rewrite decide_False.
  - m_unfold. rewrite Hio. eexists. simpl. do 3 (split; [reflexivity|]). reflexivity.
  - intros H0. apply size_empty_inv in H0. apply Hs. by apply leibniz_equiv.
Qed.

Lemma sample_created_message_relayed :
  ∃ fm, filter Wire.is_transport_emit
          (emitted (on (messageCreate (Sample.hi false))) Sample.joined)
        = [Wire.NamespaceTo "channel:C1" "message" (Wire.Message fm)].
Proof.
  destruct (created_message_relayed_once (Sample.hi false) Sample.joined
              "2024-01-01T00:00:00.000Z") as (fm & _ & _ & _ & H).
  - reflexivity.
  - vm_compute. discriminate.
  - reflexivity.
  - reflexivity.
  - exists fm. exact H.
Defined.

(** An edit is relayed as a record marked as edited, with the identifier
    and the channel of the edited message, and stamped with the edit time
    when there is one. *)
Theorem update_relayed_as_edited
    (message : Upstream.Message) (w : World) (room ev : string) (fm : Wire.DiscordMessage) :
  Wire.NamespaceTo room ev (Wire.Message fm) ∈ emitted (on (messageUpdate false message)) w →
  room = Wire.room_of (Upstream.message_channel_id message)
  ∧ ev = "message_update"
  ∧ Wire.edited fm = true
  ∧ Wire.id fm = Upstream.message_id message
  ∧ Wire.channelId fm = Upstream.message_channel_id message
  ∧ Wire.editedTimestamp fm
    = match Upstream.editedAt message with
      | Some (Some edited_iso) => edited_iso
      | _ => ""
      end.
Proof.
  unfold Js.Date in *.
  unfold on, handleMessageUpdate, formatMessage, io_emit, Js.toISOString, emitted.
  m_unfold.
  destruct (Upstream.bot (Upstream.author message)); [by intros ?%not_elem_of_nil|].
  destruct (Upstream.createdAt message) as [iso|]; simpl;
    [|intros H; apply list_elem_of_singleton in H; discriminate H].
  destruct (Upstream.editedAt message) as [[edited_iso|]|]; simpl;
    try (intros H; apply list_elem_of_singleton in H; discriminate H);
    destruct (io (discordBot w)); simpl;
    try (by intros ?%not_elem_of_nil);
    intros H; apply list_elem_of_singleton in H; injection H as -> -> ->; simpl;
    repeat split; try done.
  unfold Js.or_string, Js.truthy. case_bool_decide as Hne; [done|].
  destruct (decide (edited_iso = "")) as [->|]; [done|]. by destruct Hne.
Qed.

Lemma sample_edit_marked :
  Wire.edited (Sample.hi_wire true) = true.
Proof.
  destruct (update_relayed_as_edited (Sample.hi false) Sample.fresh
              "channel:C1" "message_update" (Sample.hi_wire true)) as (_ & _ & H & _).
  - vm_compute. apply list_elem_of_here.
  - exact H.
Defined.

(** A malformed event is dropped where it is caught: a created or updated
    message whose creation date is not a date, and a deletion whose channel
    is missing, are relayed to nobody, and the listener returns. *)
Theorem malformed_event_dropped (e : event) (w : World) :
  match e with
  | messageCreate message => Upstream.createdAt message = None
  | messageUpdate _ message => Upstream.createdAt message = None
  | messageDelete message => Upstream.deleted_channel_id message = None
  end →
  filter Wire.is_transport_emit (emitted (on e) w) = []
  ∧ result (on e) w = inr tt.
Proof.
  unfold Js.Date in *.
  destruct e as [message|partial message|message]; intros Hbad;
    unfold on, handleNewMessage, handleMessageUpdate, handleMessageDelete,
           formatMessage, io_emit, Registry.get, Js.toISOString;
    m_unfold; rewrite Hbad;
    repeat match goal with
           | |- context [if ?b then _ else _] => destruct b eqn:?
           | |- context [match ?o with Some _ => _ | None => _ end] => destruct o eqn:?
           end; done.
Qed.

Lemma sample_undated_message_dropped :
  filter Wire.is_transport_emit
    (emitted (on (messageCreate Sample2.undated)) Sample.joined) = [].
Proof.
  destruct (malformed_event_dropped (messageCreate Sample2.undated) Sample.joined)
    as [H _].
  - reflexivity.
  - exact H.
Defined.

End relay_more.

(* ===================================================================== *)
(** ** The lookups of the bot: [getChannelInfo], [getUserChannels],
       [sendMessage]                                                      *)
(* ===================================================================== *)

Section lookups.
Import DiscordBot.

Lemma silent_bind_result {A B} (m : M A) (f : A → M B) w :
  silent m →
  result (m ≫= f) w =
    match result m w with
    | inl e => inl e
    | inr a => result (f a) w
    end.
Proof.
  intros Hm. destruct (Hm w) as [Hw Ht]. unfold result, exec, emitted in *. m_unfold.
  destruct (m w) as [[r w1] t]. simpl in *. subst.
  destruct r as [e|a]; [done|]. by destruct (f a w) as [[r2 w2] t2].
Qed.

Lemma map_of_inv {A B} (xs : list A) (f : A → M B) w ys :
  (∀ x, silent (f x)) →
  result (map_of xs f) w = inr ys →
  Forall2 (λ x y, result (f x) w = inr y) xs ys.
Proof.
  intros Hf. revert ys. induction xs as [|x xs IH]; intros ys; simpl.
  - intros [= <-]. constructor.
  - rewrite silent_bind_result by apply Hf.
    destruct (result (f x) w) as [e|y] eqn:Ey; [discriminate|].
    rewrite silent_bind_result by (by apply silent_map_of).
    destruct (result (map_of xs f) w) as [e|ys'] eqn:Eys; [discriminate|].
    intros [= <-]. constructor; [done | by apply IH].
Qed.

Lemma filter_of_inv {A} (xs : list A) (pred : A → M bool) w kept :
  (∀ x, silent (pred x)) →
  result (filter_of xs pred) w = inr kept →
  Forall (λ x, x ∈ xs ∧ result (pred x) w = inr true) kept.
Proof.
  intros Hp. revert kept. induction xs as [|x xs IH]; intros kept; simpl.
  - intros [= <-]. constructor.
  - rewrite silent_bind_result by apply Hp.
    destruct (result (pred x) w) as [e|keep] eqn:Ex; [discriminate|].
    rewrite silent_bind_result by (by apply silent_filter_of).
    destruct (result (filter_of xs pred) w) as [e|kept'] eqn:Ek; [discriminate|].
    intros [= <-].
    assert (Forall (λ y, y ∈ x :: xs ∧ result (pred y) w = inr true) kept') as Htail.
    { eapply Forall_impl; [by apply IH|]. intros y [? ?]. split; [by right | done]. }
    destruct keep; [|done]. constructor; [|done]. split; [by left | done].
Qed.

(** A descriptor [getUserChannels] can return for a channel of a guild. *)
Lemma describe_inv g member channel w d :
  result (describe g member channel) w = inr d →
  ∃ granted,
    Upstream.permissionsFor channel member = Some granted
    ∧ d = {| Wire.channel_id := Upstream.id channel;
             Wire.channel_name := default "" (Upstream.name channel);
             Wire.channel_type := "text";
             Wire.channel_serverId := Upstream.guild_id g;
             Wire.channel_serverName := Upstream.guild_name g;
             Wire.channel_position := default 0 (Upstream.position channel);
             Wire.channel_unreadCount := 0;
             Wire.channel_isActive := false;
             Wire.channel_permissions :=
               {| Wire.canRead := bool_decide ("ViewChannel" ∈ granted);
                  Wire.canWrite := bool_decide ("SendMessages" ∈ granted);
                  Wire.canManage := bool_decide ("ManageChannels" ∈ granted) |} |}.
Proof.
  unfold result, describe, has_permission. m_unfold.
  destruct (Upstream.permissionsFor channel member) as [granted|]; [|discriminate].
  simpl. intros [= <-]. by exists granted.
Qed.

Lemma is_visible_inv member channel w :
  result (is_visible_text_channel member channel) w = inr true →
  Upstream.isTextBased channel = Some true
  ∧ Upstream.type channel = 0
  ∧ ∃ granted, Upstream.permissionsFor channel member = Some granted
               ∧ "ViewChannel" ∈ granted.
Proof.
  unfold result, is_visible_text_channel, has_permission. m_unfold.
  destruct (Upstream.isTextBased channel) as [[]|]; simpl; try discriminate.
  case_bool_decide as Ht; simpl; [|discriminate].
  destruct (Upstream.permissionsFor channel member) as [granted|]; [|discriminate].
  simpl. intros [= Hv]. apply bool_decide_eq_true in Hv. eauto.
Qed.

Lemma guild_channels_inv userId entry w ds :
  result (guild_channels userId entry) w = inr ds →
  Forall (λ d, Wire.canRead (Wire.channel_permissions d) = true
               ∧ Wire.channel_type d = "text"
               ∧ Wire.channel_isActive d = false
               ∧ Wire.channel_unreadCount d = 0
               ∧ Wire.channel_serverId d = Upstream.guild_id (Upstream.entry_guild entry)
               ∧ ∃ channel, channel ∈ Upstream.channels_cache entry
                            ∧ Upstream.type channel = 0
                            ∧ Wire.channel_id d = Upstream.id channel) ds.
Proof.
  unfold guild_channels.
  destruct (Upstream.members_fetch entry userId) as [e|member].
  { intros [= <-]. constructor. }
  rewrite silent_bind_result
    by (apply silent_filter_of; intros; apply silent_is_visible_text_channel).
  destruct (result (filter_of _ _) w) as [e|kept] eqn:Ek; [discriminate|].
  intros Hmap.
  apply filter_of_inv in Ek; [|intros; apply silent_is_visible_text_channel].
  apply map_of_inv in Hmap; [|intros; apply silent_describe].
  induction Hmap as [|channel d kept' ds' Hd _ IH]; [constructor|].
  apply Forall_cons in Ek as [[Hin Hvis] Ek]. constructor; [|by apply IH].
  apply is_visible_inv in Hvis as (_ & Hty & granted & Hg & Hview).
  apply describe_inv in Hd as (granted' & Hg' & ->). simpl.
  rewrite Hg in Hg'. injection Hg' as <-.
  split; [by apply bool_decide_eq_true|]. do 4 (split; [done|]). eauto.
Qed.

(** [getUserChannels] always returns a list, touches nothing, and lists
    only what the user can read: every descriptor is a text channel (type
    0) of the cache of a guild, in that guild, with [canRead] set, marked
    neither active nor unread. *)
Theorem getUserChannels_lists_readable_text_channels
    (up : Upstream.t) (userId : string) (w : World) :
  ∃ channels,
    result (getUserChannels up userId) w = inr channels
    ∧ exec (getUserChannels up userId) w = w
    ∧ Forall (λ d, Wire.canRead (Wire.channel_permissions d) = true
                   ∧ Wire.channel_type d = "text"
                   ∧ Wire.channel_isActive d = false
                   ∧ Wire.channel_unreadCount d = 0
                   ∧ ∃ entry channel,
                       entry ∈ Upstream.guilds_cache up
                       ∧ channel ∈ Upstream.channels_cache entry
                       ∧ Upstream.type channel = 0
                       ∧ Wire.channel_id d = Upstream.id channel
                       ∧ Wire.channel_serverId d
                         = Upstream.guild_id (Upstream.entry_guild entry))
             channels.
Proof.
  unfold result at 1, exec. rewrite getUserChannels_run.
  destruct (result (collect_channels up userId) w) as [e|channels] eqn:E; simpl.
  { exists []. repeat split; constructor. }
  exists channels. split; [done|]. split; [done|].
  unfold collect_channels in E.
  rewrite silent_bind_result in E
    by (apply silent_map_of; intros; apply silent_guild_channels).
  destruct (result (map_of _ _) w) as [e|per_guild] eqn:Em; [discriminate|].
  injection E as <-.
  apply map_of_inv in Em; [|intros; apply silent_guild_channels].
  induction Em as [|entry ds entries dss Hd _ IH]; simpl; [constructor|].
  apply Forall_app. split.
  - apply guild_channels_inv in Hd. eapply Forall_impl; [exact Hd|].
    intros d (?&?&?&?&?&channel&?&?&?). do 4 (split; [done|]).
    exists entry, channel. repeat split; try done. by left.
  - eapply Forall_impl; [exact IH|].
    intros d (?&?&?&?&entry'&channel&?&?&?&?&?). do 4 (split; [done|]).
    exists entry', channel. repeat split; try done. by right.
Qed.

(** A user who is a member of no guild the bot is in (every member
    lookup rejects) gets the empty list, and no error is printed. *)
Theorem getUserChannels_of_stranger (up : Upstream.t) (userId : string) (w : World) :
  (∀ entry, entry ∈ Upstream.guilds_cache up →
            ∃ e, Upstream.members_fetch entry userId = inl e) →
  result (getUserChannels up userId) w = inr []
  ∧ emitted (getUserChannels up userId) w = [].
Proof.
  intros Hall. unfold result at 1, emitted. rewrite getUserChannels_run.
  assert (result (collect_channels up userId) w = inr []) as ->; [|done].
  unfold collect_channels.
  rewrite silent_bind_result by (apply silent_map_of; intros; apply silent_guild_channels).
  assert (∀ entries, (∀ entry, entry ∈ entries →
                        ∃ e, Upstream.members_fetch entry userId = inl e) →
            ∃ per_guild, result (map_of entries (guild_channels userId)) w = inr per_guild
                         ∧ concat per_guild = []) as Hgen.
  { induction entries as [|entry entries IH]; intros Hrej; simpl.
    - by exists [].
    - rewrite silent_bind_result by apply silent_guild_channels.
      destruct (Hrej entry) as [e He]; [by left|].
      assert (result (guild_channels userId entry) w = inr []) as ->
        by (unfold guild_channels; by rewrite He).
      rewrite silent_bind_result by (apply silent_map_of; intros; apply silent_guild_channels).
      destruct IH as (per_guild & -> & Hc); [intros; apply Hrej; by right|].
      exists ([] :: per_guild). split; [done|]. done. }
  destruct (Hgen _ Hall) as (per_guild & -> & Hc). simpl. unfold result. simpl.
  by rewrite Hc.
Qed.

Lemma sample_stranger_gets_nothing :
  result (getUserChannels
            {| Upstream.channels_fetch := Sample.fetch_general;
               Upstream.guilds_cache :=
                 [ {| Upstream.entry_guild := Sample.guild;
                      Upstream.members_fetch :=
                        λ _, inl (Js.Throw Js.Error "Unknown Member");
                      Upstream.channels_cache := [Sample.general] |} ] |}
            "U9") Sample.fresh = inr [].
Proof.
  apply getUserChannels_of_stranger.
  intros entry Hin. apply list_elem_of_singleton in Hin. subst entry.
  simpl. eexists. reflexivity.
Defined.

(** [getChannelInfo] succeeds exactly on a fetched text-based channel and
    then describes that channel; it never writes, and on failure it has
    printed one line. An error of the fetch is rethrown as it is. *)
Theorem getChannelInfo_characterised (up : Upstream.t) (channelId : string) (w : World) :
  exec (getChannelInfo up channelId) w = w
  ∧ (∀ info, result (getChannelInfo up channelId) w = inr info ↔
       ∃ channel,
         Upstream.channels_fetch up channelId = inr (Some channel)
         ∧ Upstream.isTextBased channel = Some true
         ∧ info = {| Wire.info_id := Upstream.id channel;
                     Wire.info_name := default "" (Upstream.name channel);
                     Wire.info_type := Upstream.type channel;
                     Wire.info_serverId :=
                       match Upstream.guild channel with
                       | Some g => Upstream.guild_id g | None => "" end;
                     Wire.info_serverName :=
                       match Upstream.guild channel with
                       | Some g => Upstream.guild_name g | None => "" end |})
  ∧ (∀ e, Upstream.channels_fetch up channelId = inl e →
          result (getChannelInfo up channelId) w = inl e)
  ∧ (∀ e, result (getChannelInfo up channelId) w = inl e →
          emitted (getChannelInfo up channelId) w
          = [Wire.Console "Error getting channel info:" (Some e)]).
Proof.
  unfold exec, emitted.
  split; [rewrite getChannelInfo_run; by destruct (result _ w)|].
  split; [|split].
  - intros info. unfold result, getChannelInfo. m_unfold.
    destruct (Upstream.channels_fetch up channelId) as [e|[channel|]]; simpl.
    + split; [discriminate | by intros (?&?&_)].
    + destruct (Upstream.isTextBased channel) as [[]|] eqn:Et; simpl.
      * split; [intros [= <-]; eauto | intros (c & [= <-] & _ & ->); done].
      * split; [discriminate | intros (c & [= <-] & Ht & _); congruence].
      * split; [discriminate | intros (c & [= <-] & Ht & _); congruence].
    + split; [discriminate | by intros (?&?&_)].
  - intros e He. unfold result, getChannelInfo. m_unfold. by rewrite He.
  - intros e He. rewrite getChannelInfo_run, He. done.
Qed.

End lookups.

(* ===================================================================== *)
(** ** More on the connection handler                                     *)
(* ===================================================================== *)

Section handler_more.
Import DiscordHandler.


Lemma delete_as_filter x (l : list string) :
  StringSet.delete x l = filter (λ y, y ≠ x) l.
Proof. reflexivity. Qed.


Lemma delete_absent x (l : list string) : x ∉ l → StringSet.delete x l = l.
Proof.
  rewrite delete_as_filter. induction l as [|y l IH]; intros Hx; [done|].
  apply not_elem_of_cons in Hx as [Hne Hx].
  rewrite filter_cons_True by done. by rewrite IH.
Qed.

Lemma delete_added x (l : list string) : x ∉ l → StringSet.delete x (l ++ [x]) = l.
Proof.
  intros Hx. rewrite delete_as_filter, filter_app, <- delete_as_filter.
  rewrite (delete_absent x l Hx).
  rewrite filter_cons_False by tauto. rewrite filter_nil. apply app_nil_r.
Qed.

(** What [handleLeaveChannel] leaves behind it. *)
Lemma handleLeaveChannel_run channelId callback w :
  handleLeaveChannel (Some channelId) callback w =
    (inr tt,
     {| discordBot :=
          {| io := io (discordBot w);
             channelSubscriptions :=
               Registry.unsubscribeFromChannel channelId (data_discordId (data (session w)))
                 (channelSubscriptions (discordBot w)) |};
        session :=
          {| data := data (session w);
             rooms := rooms (session w) ∖ {[Wire.room_of channelId]};
             joinedChannels := StringSet.delete channelId (joinedChannels (session w)) |} |},
     match channelSubscriptions (discordBot w) !! channelId with
     | Some _ => [Wire.Console "User ... unsubscribed from channel ..." None]
     | None => []
     end
     ++ (if callback
         then [Wire.AckLeave {| Wire.lc_success := true; Wire.lc_channelId := Some channelId;
                                Wire.lc_error := None |}]
         else [])
     ++ [Wire.Console "User ... left channel ..." None]).
Proof.
  unfold handleLeaveChannel, destructure_channelId, ack, socket_leave,
         DiscordBot.unsubscribeFromChannel, Registry.get.
  m_unfold. simpl.
  destruct (channelSubscriptions (discordBot w) !! channelId); by destruct callback.
Qed.



(** Join, then leave: a connection that joins a channel it had nothing
    to do with and leaves it again is back in the world it started from,
    registry entry included. *)
Theorem join_then_leave_restores
    (up : Upstream.t) (channelId : string) (cb1 cb2 : bool) (w : World)
    (info : Wire.ChannelInfo) :
  Registry.reachable (channelSubscriptions (discordBot w)) →
  ¬ locally_joined channelId w →
  ¬ group_attached channelId w →
  ¬ registry_subscribed channelId w →
  result (DiscordBot.getChannelInfo up channelId) w = inr info →
  exec (handleLeaveChannel (Some channelId) cb2)
       (exec (handleJoinChannel up channelId cb1) w) = w.
Proof.
  unfold locally_joined, group_attached, registry_subscribed.
  intros Hr Hj Hg Hs Hinfo. unfold exec.
  rewrite (handleJoinChannel_success up channelId cb1 w info Hj Hinfo).
  rewrite handleLeaveChannel_run. simpl.
  rewrite (delete_added _ _ Hj).
  assert ((rooms (session w) ∪ {[Wire.room_of channelId]}) ∖ {[Wire.room_of channelId]}
          = rooms (session w)) as -> by set_solver.
  assert (Registry.unsubscribeFromChannel channelId (data_discordId (data (session w)))
            (Registry.subscribeToChannel channelId (data_discordId (data (session w)))
               (channelSubscriptions (discordBot w)))
          = channelSubscriptions (discordBot w)) as ->.
  { pose proof (reachable_no_empty_entry _ Hr) as Hm.
    apply map_eq. intros k. destruct (decide (channelId = k)) as [<-|Hne].
    - rewrite unsubscribe_lookup, subscribe_lookup.
      match goal with |- context [(?s ∪ {[?u]}) ∖ {[?u]}] =>
        assert ((s ∪ {[u]}) ∖ {[u]} = s) as -> by set_solver end.
      unfold Registry.listSubscribers in *.
      destruct (channelSubscriptions (discordBot w) !! channelId) as [s|] eqn:E; simpl in *.
      + rewrite decide_False; [done|]. by apply (Hm channelId).
      + by rewrite decide_True.
    - by rewrite unsubscribe_lookup_ne, subscribe_lookup_ne. }
  by destruct w as [[] []].
Qed.

Lemma sample_join_then_leave :
  exec (handleLeaveChannel (Some "C1") true)
       (exec (handleJoinChannel Sample.discord "C1" true) Sample.fresh) = Sample.fresh.
Proof.
  apply (join_then_leave_restores Sample.discord "C1" true true Sample.fresh
           (Wire.Build_ChannelInfo "C1" "general" 0 "G1" "Guild One")).
  - exists []. reflexivity.
  - vm_compute. apply not_elem_of_nil.
  - vm_compute. discriminate.
  - vm_compute. discriminate.
  - reflexivity.
Defined.

(** The loop of [handleDisconnect], with everything it sends. *)
Lemma disconnect_loop_sends (l : list string) (w : World) :
  exec (for_of l leave_on_disconnect) w =
    {| discordBot :=
         {| io := io (discordBot w);
            channelSubscriptions :=
              foldl (λ m ch, Registry.unsubscribeFromChannel ch
                               (data_discordId (data (session w))) m)
                    (channelSubscriptions (discordBot w)) l |};
       session := session w |}
  ∧ filter Wire.is_transport_emit (emitted (for_of l leave_on_disconnect) w)
    = user_left w <$> l.
Proof.
  revert w. induction l as [|x l IH]; intros w.
  - unfold exec, emitted. simpl. by rewrite world_eta.
  - unfold exec, emitted in *. simpl. m_unfold. rewrite leave_on_disconnect_run.
    match goal with |- context [for_of l leave_on_disconnect ?w1] =>
      destruct (IH w1) as [Hw Ht];
      destruct (for_of l leave_on_disconnect w1) as [[r w2] t] end.
    simpl in *. subst w2. split; [done|].
    rewrite !filter_app, Ht.
    by destruct (channelSubscriptions (discordBot w) !! x).
Qed.

Lemma listSubscribers_unsubscribe_all ch u (l : list string) (m : gmap string (gset string)) :
  Registry.listSubscribers ch
    (foldl (λ m ch, Registry.unsubscribeFromChannel ch u m) m l)
  = if decide (ch ∈ l) then Registry.listSubscribers ch m ∖ {[u]}
    else Registry.listSubscribers ch m.
Proof.
  revert m. induction l as [|x l IH]; intros m.
  - destruct (decide (ch ∈ [])) as [Hin|_]; [by apply not_elem_of_nil in Hin | done].
  - cbn [foldl]. rewrite IH. destruct (decide (x = ch)) as [->|Hne].
    + rewrite listSubscribers_unsubscribe.
      destruct (decide (ch ∈ ch :: l)) as [_|Hout]; [|by destruct Hout; left].
      destruct (decide (ch ∈ l)); set_solver.
    + rewrite listSubscribers_unsubscribe_ne by done.
      destruct (decide (ch ∈ l)) as [Hin|Hout];
        destruct (decide (ch ∈ x :: l)) as [Hin'|Hout']; try done.
      * destruct Hout'. by right.
      * apply elem_of_cons in Hin' as [->|?]; done.
Qed.

Lemma handleDisconnect_run w :
  exec handleDisconnect w =
    {| discordBot :=
         {| io := io (discordBot w);
            channelSubscriptions :=
              foldl (λ m ch, Registry.unsubscribeFromChannel ch
                               (data_discordId (data (session w))) m)
                    (channelSubscriptions (discordBot w)) (joinedChannels (session w)) |};
       session := {| data := data (session w); rooms := rooms (session w);
                     joinedChannels := [] |} |}
  ∧ filter Wire.is_transport_emit (emitted handleDisconnect w)
    = user_left w <$> joinedChannels (session w).
Proof.
  destruct (disconnect_loop_sends (joinedChannels (session w)) w) as [Hw Ht].
  destruct (disconnect_loop (joinedChannels (session w)) w) as (t & Heq & _).
  unfold exec, emitted in Hw, Ht. rewrite Heq in Hw, Ht. simpl in Hw, Ht.
  unfold exec, emitted, handleDisconnect. m_unfold. rewrite Heq. simpl.
  split; [done|].
  rewrite app_nil_r, filter_cons_False by (simpl; tauto). exact Ht.
Qed.

(** A disconnect takes the principal out of the subscriber set of every
    joined channel and changes nothing else in the registry: every other
    subscriber of those channels, and every channel that was not joined,
    is as before. *)
Theorem disconnect_touches_only_own_subscriptions (w : World) (channelId : string) :
  Registry.listSubscribers channelId
    (channelSubscriptions (discordBot (exec handleDisconnect w)))
  = if decide (channelId ∈ joinedChannels (session w))
    then Registry.listSubscribers channelId (channelSubscriptions (discordBot w))
           ∖ {[data_discordId (data (session w))]}
    else Registry.listSubscribers channelId (channelSubscriptions (discordBot w)).
Proof.
  destruct (handleDisconnect_run w) as [-> _]. simpl.
  apply listSubscribers_unsubscribe_all.
Qed.

(** A disconnect sends one [user_left] notification per joined channel,
    in the order the channels were joined, each to the channel's delivery
    group, and nothing else to any client. *)
Theorem disconnect_notifies_each_joined_channel_once (w : World) :
  filter Wire.is_transport_emit (emitted handleDisconnect w)
  = (λ channelId,
       Wire.SocketTo (Wire.room_of channelId) "user_left"
         (Wire.UserLeft channelId (data_userId (data (session w)))
                        (data_username (data (session w)))))
    <$> joinedChannels (session w).
Proof. by destruct (handleDisconnect_run w) as [_ ->]. Qed.

End handler_more.

(* ===================================================================== *)
(** ** One connection over time: what every step keeps                    *)
(* ===================================================================== *)

Section connection_invariant.
Import DiscordHandler Connection.











(** The first thing a connection gets: [sendInitialData] never fails. It
    sends the channel list on ['channels'] and then the user on
    ['user_info'], nothing else, and never the ['error'] event of its
    [catch]. *)
Theorem initial_data_always_sent (up : Upstream.t) (w : World) :
  ∃ channels,
    result (DiscordBot.getUserChannels up (data_discordId (data (session w)))) w
      = inr channels
    ∧ filter Wire.is_transport_emit (emitted (sendInitialData up) w)
      = [Wire.SocketEmit "channels" (Wire.Channels channels);
         Wire.SocketEmit "user_info"
           (Wire.UserInfo (data_userId (data (session w)))
                          (data_username (data (session w)))
                          (data_permissions (data (session w))))]
    ∧ result (sendInitialData up) w = inr tt
    ∧ exec (sendInitialData up) w = w.
Proof.
  unfold sendInitialData. m_unfold. rewrite getUserChannels_run.
  destruct (result (DiscordBot.collect_channels up _) w) as [e|channels];
    eexists; simpl; repeat split; reflexivity.
Qed.

(** [handleGetChannels] sends on ['channels_list'] the very list it
    gives to the callback, and never the ['error'] event of its [catch]. *)
Theorem getChannels_emits_what_it_answers (up : Upstream.t) (callback : bool) (w : World) :
  ∃ channels,
    filter Wire.is_transport_emit (emitted (handleGetChannels up callback) w)
      = [Wire.SocketEmit "channels_list" (Wire.Channels channels)]
    ∧ filter Wire.is_ack (emitted (handleGetChannels up callback) w)
      = (if callback
         then [Wire.AckGetChannels {| Wire.gc_success := true; Wire.gc_error := None;
                                      Wire.gc_channels := channels |}]
         else [])
    ∧ result (DiscordBot.getUserChannels up (data_discordId (data (session w)))) w
      = inr channels.
Proof.
  unfold handleGetChannels, handleGetChannels_with, ack. m_unfold.
  rewrite getUserChannels_run.
  destruct (result (DiscordBot.collect_channels up _) w) as [e|channels];
    eexists; destruct callback; simpl; repeat split; reflexivity.
Qed.

End connection_invariant.

(* ===================================================================== *)
(** ** Authentication, on the socket and over HTTP                        *)
(* ===================================================================== *)

Section authentication.

(** [authenticateSocket] lets a connection through exactly when the
    handshake carries a non-empty token that verifies to a payload with a
    user name and a Discord id; it then stores that payload and that id on
    the socket. *)
Theorem authenticate_accepts_exactly_valid_tokens
    (verify : string → Js.exn + Auth.AuthPayload) (token : option string) :
  Auth.next_error (Auth.authenticateSocket verify token) = None
  ↔ ∃ tok decoded,
      token = Some tok ∧ tok ≠ ""
      ∧ verify tok = inr decoded
      ∧ Js.truthy (Auth.username decoded) = true
      ∧ Js.truthy (Auth.discord_id decoded) = true
      ∧ Auth.authenticateSocket verify token
        = {| Auth.next_error := None; Auth.socket_user := Some decoded;
             Auth.socket_discordId := Auth.discord_id decoded |}.
Proof.
  unfold Auth.authenticateSocket, Auth.authenticate_try, Auth.authenticate_catch.
  split.
  - destruct token as [tok|]; [|discriminate]. simpl.
    case_bool_decide as Htok; simpl; [|discriminate].
    destruct (verify tok) as [e|decoded] eqn:Ev.
    { repeat (match goal with |- context [if ?b then _ else _] => destruct b end);
        discriminate. }
    destruct (Js.truthy (Auth.username decoded)) eqn:Hu; simpl; [|discriminate].
    destruct (Js.truthy (Auth.discord_id decoded)) eqn:Hd; simpl; [|discriminate].
    intros _. exists tok, decoded. by rewrite Ev.
  - intros (tok & decoded & -> & Htok & Ev & Hu & Hd & _). simpl.
    rewrite bool_decide_true by done. simpl. by rewrite Ev, Hu, Hd.
Qed.

(** Every refusal of [authenticateSocket] leaves the socket without user
    and without id, and says why in one of four messages: no token, a token
    [jwt.verify] throws a [JsonWebTokenError] on, another throw, or a
    payload without user name or id. The verifier is not called without a
    token. *)
Theorem authenticate_refusals
    (verify : string → Js.exn + Auth.AuthPayload) (token : option string) :
  let o := Auth.authenticateSocket verify token in
  (Auth.next_error o ≠ None →
     Auth.socket_user o = None ∧ Auth.socket_discordId o = None)
  ∧ (Js.truthy token = false → o = Auth.reject "Authentication token required")
  ∧ (∀ tok e, token = Some tok → tok ≠ "" → verify tok = inl e →
       o = Auth.reject (if Js.instanceOf e Js.JsonWebTokenError
                        then "Invalid authentication token"
                        else "Authentication failed"))
  ∧ (∀ tok decoded, token = Some tok → tok ≠ "" → verify tok = inr decoded →
       Js.truthy (Auth.username decoded) = false
       ∨ Js.truthy (Auth.discord_id decoded) = false →
       o = Auth.reject "Invalid token payload").
Proof.
  unfold Auth.authenticateSocket, Auth.authenticate_try, Auth.authenticate_catch.
  split; [|split; [|split]].
  - destruct token as [tok|]; [|done]. simpl.
    destruct (negb _); [done|].
    destruct (verify tok) as [e|decoded].
    + repeat (match goal with |- context [if ?b then _ else _] => destruct b end); done.
    + destruct (_ || _); [done|]. simpl. congruence.
  - destruct token as [tok|]; [|done]. intros Ht. by rewrite Ht.
  - intros tok e -> Htok Ev. simpl. rewrite bool_decide_true by done. simpl.
    rewrite Ev. destruct (Js.instanceOf e Js.JsonWebTokenError) eqn:Hj; [done|].
    destruct (Js.instanceOf e Js.TokenExpiredError) eqn:Ht; [|done].
    apply TokenExpiredError_is_JsonWebTokenError in Ht. congruence.
  - intros tok decoded -> Htok Ev Hbad. simpl. rewrite bool_decide_true by done. simpl.
    rewrite Ev. by destruct Hbad as [-> | ->]; simpl; rewrite ?orb_true_r.
Qed.

(** [requirePermission] lets through exactly the sockets whose
    permission list holds the permission asked for or ['admin']; a socket
    without a permission list is refused, with the permission named in the
    message. *)
Theorem requirePermission_grants (permission : string) (permissions : option (list string)) :
  (SocketGuards.requirePermission permission permissions = None
   ↔ ∃ granted, permissions = Some granted ∧ (permission ∈ granted ∨ "admin" ∈ granted))
  ∧ (SocketGuards.requirePermission permission permissions ≠ None →
     SocketGuards.requirePermission permission permissions
     = Some ("Permission denied: " +:+ permission +:+ " required")).
Proof.
  unfold SocketGuards.requirePermission. split.
  - destruct permissions as [granted|]; simpl.
    + destruct (decide (permission ∈ granted)) as [Hp|Hp];
        destruct (decide ("admin" ∈ granted)) as [Ha|Ha];
        rewrite ?(bool_decide_true _ Hp), ?(bool_decide_false _ Hp),
                ?(bool_decide_true _ Ha), ?(bool_decide_false _ Ha); simpl;
        (split; [intros H; try discriminate H; eauto |]);
        try done.
      intros (g & Hg & Hor). injection Hg as <-. by destruct Hor.
    + split; [intros H; vm_compute in H; discriminate H|]. by intros (g & Hg & _).
  - by destruct (_ && _).
Qed.

(** The two guards refuse every socket that [authenticateSocket] let
    through: it stores the user and the Discord id, and neither the
    [userId] that [requireChannelAccess] tests nor the [permissions] that
    [requirePermission] reads. *)
Theorem guards_refuse_authenticated_sockets
    (verify : string → Js.exn + Auth.AuthPayload) (token : option string)
    (permission channelId : string) :
  let d := SocketGuards.authenticated (Auth.authenticateSocket verify token)
             SocketGuards.unset in
  SocketGuards.requirePermission permission (SocketGuards.permissions d)
    = Some ("Permission denied: " +:+ permission +:+ " required")
  ∧ SocketGuards.requireChannelAccess channelId (SocketGuards.userId d)
    = Some "Authentication required".
Proof.
  unfold SocketGuards.authenticated.
  destruct (Auth.next_error (Auth.authenticateSocket verify token)); simpl;
    unfold SocketGuards.requirePermission, SocketGuards.requireChannelAccess; simpl;
    split; reflexivity.
Qed.

Lemma split_spaceless (tok : string) :
  Http.has_space tok = false → Http.split_space tok = [tok].
Proof.
  induction tok as [|c tok IH]; simpl; [done|].
  intros H. apply orb_false_iff in H as [Hc Hrest].
  apply bool_decide_eq_false in Hc. rewrite decide_False by done.
  by rewrite (IH Hrest).
Qed.

Lemma bearer_token (tok : string) :
  Http.has_space tok = false →
  Http.split_space ("Bearer " +:+ tok) !! 1 = Some tok.
Proof.
  intros H. simpl. change ("" +:+ tok) with tok. by rewrite (split_spaceless tok H).
Qed.

(** [authMiddleware] hands to [jwt.verify] exactly what follows
    ['Bearer '] in the header (a token has no space in it), under the
    configured secret, and calls [next] when it verifies; when it does not,
    or when no secret is configured, the answer is 401. *)
Theorem authMiddleware_verifies_bearer_token
    (jwt_verify : string → string → Js.exn + Auth.AuthPayload)
    (secret : option string) (tok : string) :
  Http.has_space tok = false →
  Http.authMiddleware jwt_verify secret (Some ("Bearer " +:+ tok))
  = match secret with
    | Some sec =>
        if Js.truthy secret
        then match jwt_verify tok sec with
             | inr user => Http.Next user
             | inl _ => Http.Answered Http.invalid_token
             end
        else Http.Answered Http.invalid_token
    | None => Http.Answered Http.invalid_token
    end.
Proof.
  intros H. unfold Http.authMiddleware.
  rewrite (bearer_token tok H). unfold Http.verifyToken.
  assert (Js.truthy (Some ("Bearer " +:+ tok)) = true) as -> by done.
  assert (String.prefix "Bearer " ("Bearer " +:+ tok) = true) as ->.
  { simpl. by destruct ("" +:+ tok). }
  simpl. destruct secret as [sec|]; [|done].
  destruct (Js.truthy (Some sec)); [|done]. simpl.
  by destruct (jwt_verify tok sec).
Qed.

Lemma sample_bearer_token_verified :
  Http.authMiddleware Sample2.jwt_verify (Some "s3cret") (Some "Bearer good")
  = Http.Next {| Auth.username := Some "alice"; Auth.discord_id := Some "U1" |}.
Proof.
  exact (authMiddleware_verifies_bearer_token Sample2.jwt_verify (Some "s3cret") "good"
           eq_refl).
Defined.

End authentication.

(* ===================================================================== *)
(** ** [GET /channels] and [sendMessage]                                  *)
(* ===================================================================== *)

Section http_and_outbound.

(** The handler of [GET /channels] always answers, and never through its
    [catch]: without a Discord id in the payload the answer is 401; with
    one it is 200 ['succeed'] carrying exactly the list [getUserChannels]
    gives for that id, the list the socket handler sends on
    ['channels_list']. *)
Theorem channels_route_never_fails
    (up : Upstream.t) (user : option Auth.AuthPayload) (w : World) :
  ∃ r,
    result (Http.channels_handler up user) w = inr r
    ∧ exec (Http.channels_handler up user) w = w
    ∧ Http.message r ≠ "Failed to fetch channels"
    ∧ match user ≫= Auth.discord_id with
      | Some id =>
          if Js.truthy (Some id)
          then Http.code r = 200 ∧ Http.status r = "succeed"
               ∧ result (DiscordBot.getUserChannels up id) w = inr (Http.reply_data r)
          else Http.code r = 401 ∧ Http.status r = "failed" ∧ Http.reply_data r = []
      | None => Http.code r = 401 ∧ Http.status r = "failed" ∧ Http.reply_data r = []
      end.
Proof.
  unfold Http.channels_handler.
  destruct (user ≫= Auth.discord_id) as [id|] eqn:E.
  - destruct (Js.truthy (Some id)) eqn:Ht; cbn [negb]; m_unfold.
    + rewrite getUserChannels_run.
      destruct (result (DiscordBot.collect_channels up id) w) as [e|channels];
        eexists; simpl; repeat split; done.
    + eexists. simpl. repeat split; done.
  - m_unfold. eexists. simpl. repeat split; done.
Qed.

(** End to end: a request whose header is ['Bearer '] followed by a
    token that verifies to a payload with a Discord id is answered 200
    ['succeed'] with that user's channels. *)
Theorem get_channels_with_valid_token
    (jwt_verify : string → string → Js.exn + Auth.AuthPayload)
    (sec tok id : string) (user : Auth.AuthPayload) (up : Upstream.t) (w : World) :
  Http.has_space tok = false →
  sec ≠ "" →
  jwt_verify tok sec = inr user →
  Auth.discord_id user = Some id →
  id ≠ "" →
  ∃ channels,
    result (DiscordBot.getUserChannels up id) w = inr channels
    ∧ result (Http.get_channels jwt_verify (Some sec) up (Some ("Bearer " +:+ tok))) w
      = inr {| Http.code := 200; Http.status := "succeed";
               Http.message := "Fetched accessible channels";
               Http.reply_data := channels |}.
Proof.
  intros Hsp Hsec Hv Hid Hne. unfold Http.get_channels, Http.authMiddleware.
  rewrite (bearer_token tok Hsp). unfold Http.verifyToken.
  assert (Js.truthy (Some ("Bearer " +:+ tok)) = true) as -> by done.
  assert (String.prefix "Bearer " ("Bearer " +:+ tok) = true) as ->.
  { simpl. by destruct ("" +:+ tok). }
  assert (Js.truthy (Some sec) = true) as -> by (simpl; by apply bool_decide_eq_true).
  simpl. rewrite Hv. unfold Http.channels_handler. simpl. rewrite Hid.
  assert (Js.truthy (Some id) = true) as -> by (simpl; by apply bool_decide_eq_true).
  m_unfold. simpl. rewrite getUserChannels_run.
  destruct (result (DiscordBot.collect_channels up id) w) as [e|channels];
    eexists; split; reflexivity.
Qed.

Lemma sample_get_channels :
  ∃ channels,
    result (Http.get_channels Sample2.jwt_verify (Some "s3cret") Sample.discord
              (Some "Bearer good")) Sample.fresh
    = inr {| Http.code := 200; Http.status := "succeed";
             Http.message := "Fetched accessible channels";
             Http.reply_data := channels |}.
Proof.
  destruct (get_channels_with_valid_token Sample2.jwt_verify "s3cret" "good" "U1"
              {| Auth.username := Some "alice"; Auth.discord_id := Some "U1" |}
              Sample.discord Sample.fresh) as (channels & _ & H).
  - reflexivity.
  - discriminate.
  - reflexivity.
  - reflexivity.
  - discriminate.
  - exists channels. exact H.
Defined.

(** [sendMessage] returns exactly when the fetched channel is text-based
    and has a [send] method, the platform accepts the content and the
    created message has a valid date; it then reports the identifier,
    content and time of the created message. It writes nothing, sends
    nothing to any client, and on failure prints the error it rethrows. The
    registry is not consulted and [userId] is not used. *)
Theorem sendMessage_characterised
    (fetch : string → Js.exn + option Outbound.Sendable)
    (channelId content userId : string) (w : World) :
  exec (Outbound.sendMessage fetch channelId content userId) w = w
  ∧ filter Wire.is_transport_emit
      (emitted (Outbound.sendMessage fetch channelId content userId) w) = []
  ∧ (∀ sent, result (Outbound.sendMessage fetch channelId content userId) w = inr sent ↔
       ∃ c send_content message iso,
         fetch channelId = inr (Some c)
         ∧ Upstream.isTextBased (Outbound.channel c) = Some true
         ∧ Outbound.send c = Some send_content
         ∧ send_content content = inr message
         ∧ Upstream.createdAt message = Some iso
         ∧ sent = {| Outbound.sent_id := Upstream.message_id message;
                     Outbound.sent_content := Upstream.content message;
                     Outbound.sent_timestamp := iso |})
  ∧ (∀ e, result (Outbound.sendMessage fetch channelId content userId) w = inl e →
          emitted (Outbound.sendMessage fetch channelId content userId) w
          = [Wire.Console "Error sending message:" (Some e)]).
Proof.
  unfold Js.Date in *.
  unfold exec, emitted, result, Outbound.sendMessage, Js.toISOString. m_unfold.
  destruct (fetch channelId) as [e|[c|]] eqn:Ef; simpl.
  1,3: (split; [done|]; split; [done|]; split;
        [intros sent; split; [discriminate | by intros (?&?&?&?&?&_)]
        | by intros ? [= <-]]).
  destruct (Upstream.isTextBased (Outbound.channel c)) as [[]|] eqn:Et; simpl.
  2,3: (split; [done|]; split; [done|]; split;
        [intros sent; split;
           [discriminate | intros (c'&?&?&?&[= <-]&Ht&_); congruence]
        | by intros ? [= <-]]).
  destruct (Outbound.send c) as [send_content|] eqn:Es; simpl.
  2: { split; [done|]; split; [done|]; split;
         [intros sent; split;
            [discriminate | intros (c'&?&?&?&[= <-]&_&Hs&_); congruence]
         | by intros ? [= <-]]. }
  destruct (send_content content) as [e|message] eqn:Em; simpl.
  { split; [done|]; split; [done|]; split;
      [intros sent; split;
         [discriminate
         | intros (c'&sc&?&?&[= <-]&_&Hs&Hm&_); rewrite Es in Hs;
           injection Hs as <-; congruence]
      | by intros ? [= <-]]. }
  destruct (Upstream.createdAt message) as [iso|] eqn:Ec; simpl.
  - split; [done|]. split; [done|]. split; [|discriminate].
    intros sent. split.
    + intros [= <-]. exists c, send_content, message, iso. by rewrite Ec.
    + intros (c'&sc&m'&iso'&[= <-]&_&Hs&Hm&Hc&->). rewrite Es in Hs.
      injection Hs as <-. rewrite Em in Hm. injection Hm as <-.
      rewrite Ec in Hc. by injection Hc as <-.
  - split; [done|]. split; [done|]. split; [|by intros ? [= <-]].
    intros sent. split; [discriminate|].
    intros (c'&sc&m'&iso'&[= <-]&_&Hs&Hm&Hc&_). rewrite Es in Hs.
    injection Hs as <-. rewrite Em in Hm. injection Hm as <-. congruence.
Qed.

End http_and_outbound.
